(** * effolkronium::basic_random_static — a shallow embedding of [random.hpp]

    The header declares one class template, [basic_random_static<Engine>],
    with four overloads of a static member function [get] and one static
    data member [engine].  The embedding has three layers:

    - the _static_ layer: the C++ types the header talks about, its type
      traits, [std::common_type], and which overload of [get] a call
      resolves to (or that the call is ill-formed);
    - the _dynamic_ layer: the bodies of the four overloads as functions
      over an explicit program state that holds the one static [engine];
    - the _standard library_ layer: [std::uniform_int_distribution] and
      [std::uniform_real_distribution], taken as parameters together with
      the contract the C++ standard gives them ([rand.dist.uni.int],
      [rand.dist.uni.real]). *)

From Stdlib Require Import ZArith Bool List Lia.
From Stdlib Require Import Floats.SpecFloat.
Import ListNotations.

Local Open Scope Z_scope.

(** ** C++ types *)

(** The types a call of [get] can mention: the eight types accepted by
    [is_uniform_int], the three accepted by [is_uniform_real], the two
    accepted by [is_byte], and two types outside every category: [bool]
    (arithmetic, but unsupported) and the nested tag struct [common]. *)
Inductive ctype : Type :=
  | Short | Int | Long | LongLong
  | UShort | UInt | ULong | ULongLong
  | Float | Double | LongDouble
  | SChar | UChar
  | Bool
  | CommonTag.

Definition ctype_eq_dec (T U : ctype) : {T = U} + {T <> U}.
Proof. decide equality. Defined.

(** [std::is_same<T, U>::value] *)
Definition is_same (T U : ctype) : bool :=
  if ctype_eq_dec T U then true else false.

(** ** The traits declared by the class (random.hpp, lines 21-59) *)

Definition is_uniform_int (T : ctype) : bool :=
     is_same T Short
  || is_same T Int
  || is_same T Long
  || is_same T LongLong
  || is_same T UShort
  || is_same T UInt
  || is_same T ULong
  || is_same T ULongLong.

Definition is_uniform_real (T : ctype) : bool :=
     is_same T Float
  || is_same T Double
  || is_same T LongDouble.

Definition is_byte (T : ctype) : bool :=
     is_same T SChar
  || is_same T UChar.

Definition is_supported_number (T : ctype) : bool :=
     is_byte T
  || is_uniform_real T
  || is_uniform_int T.

(** ** The traits of <type_traits> the class uses *)

Definition is_arithmetic (T : ctype) : bool :=
  match T with CommonTag => false | _ => true end.

Definition is_floating_point (T : ctype) : bool :=
  match T with Float | Double | LongDouble => true | _ => false end.

Definition is_integral (T : ctype) : bool :=
  is_arithmetic T && negb (is_floating_point T).

(** [std::is_signed<T>]: arithmetic and [T(-1) < T(0)]. *)
Definition is_signed (T : ctype) : bool :=
  match T with
  | SChar | Short | Int | Long | LongLong
  | Float | Double | LongDouble => true
  | _ => false
  end.

(** [std::is_unsigned<T>]: arithmetic and [T(0) < T(-1)]. *)
Definition is_unsigned (T : ctype) : bool :=
  match T with
  | UChar | UShort | UInt | ULong | ULongLong | Bool => true
  | _ => false
  end.

(** ** Data models

    The width of [long] and the format of [long double] are the only
    choices of the platform the header is sensitive to. *)
Variant data_model : Type :=
  | ILP32   (* 32-bit long, x87 long double *)
  | LLP64   (* 32-bit long, long double = double *)
  | LP64.   (* 64-bit long, x87 long double *)

(** Width in bits of an integral type. *)
Definition bits (dm : data_model) (T : ctype) : Z :=
  match T with
  | Bool => 1
  | SChar | UChar => 8
  | Short | UShort => 16
  | Int | UInt => 32
  | Long | ULong => match dm with LP64 => 64 | _ => 32 end
  | LongLong | ULongLong => 64
  | _ => 0
  end.

(** Integer conversion rank ([conv.rank]). *)
Definition rank (T : ctype) : Z :=
  match T with
  | Bool => 0
  | SChar | UChar => 1
  | Short | UShort => 2
  | Int | UInt => 3
  | Long | ULong => 4
  | LongLong | ULongLong => 5
  | _ => 0
  end.

(** Smallest and largest value of an integral type. *)
Definition min_value (dm : data_model) (T : ctype) : Z :=
  if is_signed T then - 2 ^ (bits dm T - 1) else 0.

Definition max_value (dm : data_model) (T : ctype) : Z :=
  if is_signed T then 2 ^ (bits dm T - 1) - 1 else 2 ^ bits dm T - 1.

Definition in_range (dm : data_model) (T : ctype) (z : Z) : Prop :=
  min_value dm T <= z <= max_value dm T.

Definition in_rangeb (dm : data_model) (T : ctype) (z : Z) : bool :=
  (min_value dm T <=? z) && (z <=? max_value dm T).

(** Every value of [U] is a value of [T]. *)
Definition represents_all (dm : data_model) (T U : ctype) : bool :=
  (min_value dm T <=? min_value dm U) && (max_value dm U <=? max_value dm T).

Definition to_unsigned (T : ctype) : ctype :=
  match T with
  | SChar => UChar
  | Short => UShort
  | Int => UInt
  | Long => ULong
  | LongLong => ULongLong
  | _ => T
  end.

(** Integral promotion ([conv.prom]): a type of rank below [int] becomes
    [int] when [int] holds all its values, [unsigned int] otherwise. *)
Definition promote (dm : data_model) (T : ctype) : ctype :=
  if rank T <? rank Int then
    if represents_all dm Int T then Int else UInt
  else T.

(** The usual arithmetic conversions ([expr.arith.conv]) on two
    arithmetic types. *)
Definition usual_arithmetic_conversions (dm : data_model) (A B : ctype) : ctype :=
  if is_same A LongDouble || is_same B LongDouble then LongDouble
  else if is_same A Double || is_same B Double then Double
  else if is_same A Float || is_same B Float then Float
  else
    let A' := promote dm A in
    let B' := promote dm B in
    if is_same A' B' then A'
    else if Bool.eqb (is_signed A') (is_signed B') then
      if rank A' <? rank B' then B' else A'
    else
      let U := if is_signed A' then B' else A' in
      let S := if is_signed A' then A' else B' in
      if rank S <=? rank U then U
      else if represents_all dm S U then S
      else to_unsigned S.

(** [std::common_type<A, B>::type]: the decayed type of
    [false ? declval<A>() : declval<B>()].  Two operands of one type keep
    it (no promotion); two different arithmetic types go through the usual
    arithmetic conversions; [common] has no common type with a number. *)
Definition common_type (dm : data_model) (A B : ctype) : option ctype :=
  if is_same A B then Some A
  else if is_arithmetic A && is_arithmetic B
       then Some (usual_arithmetic_conversions dm A B)
       else None.

(** ** Overload resolution for [get] *)

(** The four function templates named [get], each at the template
    arguments it is instantiated with. *)
Inductive overload : Type :=
  | OvUniformInt (A : ctype)        (* random.hpp, lines 70-76 *)
  | OvUniformReal (A : ctype)       (* random.hpp, lines 87-93 *)
  | OvByte (A : ctype)              (* random.hpp, lines 103-112 *)
  | OvCommon (A B C : ctype).       (* random.hpp, lines 129-139 *)

(** How a call names its template arguments: [get(from, to)] leaves all
    of them to deduction, [get<K>(from, to)] gives the first one.  These
    are the two call forms the header documents; calls that give further
    template arguments are [candidates_with] below. *)
Variant template_args : Type :=
  | Deduced
  | Explicit (K : ctype).

(** A template [template<typename A> enable_if<enabled<A>, A> get(A, A)].
    With nothing explicit, [A] is deduced from both arguments and the two
    deductions have to agree; with [A] explicit, both parameters are
    non-deduced and the arguments only have to convert to [A]. *)
Definition single_type_candidate
    (enabled : ctype -> bool) (instance : ctype -> overload)
    (targs : template_args) (TA TB : ctype) : list overload :=
  match targs with
  | Deduced =>
      if is_same TA TB && enabled TA then [instance TA] else []
  | Explicit K =>
      if enabled K && is_arithmetic TA && is_arithmetic TB
      then [instance K] else []
  end.

(** The [enable_if] condition of the common-type overload
    (random.hpp, lines 131-136). *)
Definition common_enabled (Key A B : ctype) : bool :=
     is_same Key CommonTag
  && is_supported_number A
  && is_supported_number B
  && negb (Bool.eqb (is_signed A) (is_unsigned B)).

(** The template [template<Key, A, B, C = common_type<A, B>>].  [Key]
    occurs in no function parameter and has no default, so it is never
    deduced.  In the two call forms of [template_args], [A] and [B] are
    deduced and [C] takes its default; [common_candidate_with] below is
    the template on any list of template arguments. *)
Definition common_candidate
    (dm : data_model) (targs : template_args) (TA TB : ctype) : list overload :=
  match targs with
  | Deduced => []
  | Explicit Key =>
      match common_type dm TA TB with
      | Some C => if common_enabled Key TA TB then [OvCommon TA TB C] else []
      | None => []
      end
  end.

Definition candidates
    (dm : data_model) (targs : template_args) (TA TB : ctype) : list overload :=
     single_type_candidate is_uniform_int OvUniformInt targs TA TB
  ++ single_type_candidate is_uniform_real OvUniformReal targs TA TB
  ++ single_type_candidate is_byte OvByte targs TA TB
  ++ common_candidate dm targs TA TB.

(** A call is well-formed when exactly one candidate is viable. *)
Definition resolve
    (dm : data_model) (targs : template_args) (TA TB : ctype) : option overload :=
  match candidates dm targs TA TB with
  | [ov] => Some ov
  | _ => None
  end.

(** The result type written in each declaration. *)
Definition return_type (ov : overload) : ctype :=
  match ov with
  | OvUniformInt A | OvUniformReal A | OvByte A => A
  | OvCommon _ _ C => C
  end.

(** [short_t] of the byte overload (random.hpp, lines 107-108). *)
Definition short_t (A : ctype) : ctype :=
  if is_signed A then Short else UShort.

(** The unqualified call [get(x, y)] a body makes with both arguments of
    type [T]; instantiating the body needs it to resolve. *)
Definition inner_call (ov : overload) : option ctype :=
  match ov with
  | OvByte A => Some (short_t A)
  | OvCommon _ _ C => Some C
  | _ => None
  end.

Definition instantiates (dm : data_model) (ov : overload) : bool :=
  match inner_call ov with
  | None => true
  | Some T =>
      match resolve dm Deduced T T with
      | None => false
      | Some ov' =>
          match inner_call ov' with
          | None => true
          | Some T' =>
              match resolve dm Deduced T' T' with
              | Some (OvUniformInt _ | OvUniformReal _) => true
              | _ => false
              end
          end
      end
  end.

(** A call of [get] compiles when it resolves and the chosen body
    instantiates. *)
Definition compiles
    (dm : data_model) (targs : template_args) (TA TB : ctype) : option overload :=
  match resolve dm targs TA TB with
  | Some ov => if instantiates dm ov then Some ov else None
  | None => None
  end.

(** ** Values and conversions *)

(** A value of an arithmetic type: an integer for the integral types, a
    binary floating-point datum for the floating-point ones. *)
Inductive value : Type :=
  | Vint (z : Z)
  | Vreal (f : spec_float).

(** Precision and exponent bound of a floating-point type. *)
Definition real_format (dm : data_model) (T : ctype) : Z * Z :=
  match T with
  | Float => (24, 128)
  | Double => (53, 1024)
  | _ => match dm with LLP64 => (53, 1024) | _ => (64, 16384) end
  end.

Definition is_nan (f : spec_float) : bool :=
  match f with S754_nan => true | _ => false end.

Definition is_finite (f : spec_float) : bool :=
  match f with S754_zero _ | S754_finite _ _ _ => true | _ => false end.

(** Conversion of an integer to an integral type: the value modulo
    [2 ^ bits], read in the range of the type. *)
Definition wrap (dm : data_model) (T : ctype) (z : Z) : Z :=
  if is_signed T
  then (z + 2 ^ (bits dm T - 1)) mod 2 ^ bits dm T - 2 ^ (bits dm T - 1)
  else z mod 2 ^ bits dm T.

(** Conversion of an integer to a floating-point type: round to nearest,
    ties to even. *)
Definition real_of_int (dm : data_model) (T : ctype) (z : Z) : spec_float :=
  let '(prec, emax) := real_format dm T in
  binary_normalize prec emax z 0 false.

(** Conversion between floating-point types. *)
Definition real_of_real (dm : data_model) (T : ctype) (f : spec_float) : spec_float :=
  let '(prec, emax) := real_format dm T in
  match f with
  | S754_finite s m e => binary_normalize prec emax (cond_Zopp s (Zpos m)) e s
  | _ => f
  end.

(** Conversion of a floating-point datum to an integer: the fractional
    part is discarded; nothing is defined for infinities and NaN. *)
Definition truncate (f : spec_float) : option Z :=
  match f with
  | S754_zero _ => Some 0
  | S754_finite s m e =>
      Some (cond_Zopp s (if 0 <=? e then Z.shiftl (Zpos m) e
                         else Z.shiftr (Zpos m) (- e)))
  | _ => None
  end.

(** [static_cast<C>(v)] for [v] of type [A].  [None] is undefined
    behaviour: a floating-point datum whose truncation the integral
    target cannot hold ([conv.fpint]), or a target that is no number. *)
Definition static_cast (dm : data_model) (A C : ctype) (v : value) : option value :=
  if is_same A C then Some v
  else if is_same C Bool then
    match v with
    | Vint z => Some (Vint (if z =? 0 then 0 else 1))
    | Vreal f => Some (Vint (if SFeqb f (S754_zero false) then 0 else 1))
    end
  else if is_floating_point C then
    match v with
    | Vint z => Some (Vreal (real_of_int dm C z))
    | Vreal f => Some (Vreal (real_of_real dm C f))
    end
  else if is_integral C then
    match v with
    | Vint z => Some (Vint (wrap dm C z))
    | Vreal f =>
        match truncate f with
        | Some z => if in_rangeb dm C z then Some (Vint z) else None
        | None => None
        end
    end
  else None.

(** The type at which a call with result type [T] instantiates the
    distribution: the byte overload samples at [short_t] (random.hpp,
    lines 107-111), the other two at their own type. *)
Definition sampling_type (T : ctype) : ctype :=
  if is_byte T then short_t T else T.

(** [numeric_limits<double>::max()] *)
Definition double_max : spec_float := SFmax_float 53 1024.

(** [std::min] and [std::max] on floating-point data. *)
Definition SFmin (a b : spec_float) : spec_float := if SFltb b a then b else a.
Definition SFmax (a b : spec_float) : spec_float := if SFltb a b then b else a.

(** ** Program state and the sampling monad *)

Section Sampler.

(** The template parameter [Engine], and everything else a program
    could observe. *)
Variable Engine : Type.
Variable World : Type.

(** The data model the program is compiled for. *)
Variable dm : data_model.

(** [basic_random_static<Engine>] has exactly one piece of state, the
    static data member [engine] (random.hpp, lines 142 and 146). *)
Record state : Type := { engine : Engine; world : World }.

Definition set_engine (s : state) (e : Engine) : state :=
  {| engine := e; world := world s |}.

(** What running a computation yields: a result and the state after
    it, or undefined behaviour. *)
Inductive outcome (X : Type) : Type :=
  | Returns (x : X) (s : state)
  | Undefined.
Arguments Returns {X} x s.
Arguments Undefined {X}.

Definition M (X : Type) : Type := state -> outcome X.

Definition ret {X : Type} (x : X) : M X := fun s => Returns x s.

Definition bind {X Y : Type} (m : M X) (k : X -> M Y) : M Y :=
  fun s => match m s with
           | Returns x s' => k x s'
           | Undefined => Undefined
           end.

Definition undefined {X : Type} : M X := fun _ => Undefined.

Definition defined {X : Type} (o : option X) : M X :=
  match o with Some x => ret x | None => undefined end.

Notation "x <- m ;; k" := (bind m (fun x => k))
  (at level 61, m at next level, right associativity).

(** *** The standard distributions

    [uniform_int_distribution T a b e] is one call
    [std::uniform_int_distribution<T>{a, b}(e)]: the number drawn and
    the engine after the draw.  Likewise for
    [uniform_real_distribution]. *)
Variable uniform_int_distribution : ctype -> Z -> Z -> Engine -> Z * Engine.
Variable uniform_real_distribution :
  ctype -> spec_float -> spec_float -> Engine -> spec_float * Engine.

(** [rand.dist.uni.int]: requires [a <= b]. *)
Definition int_precondition (a b : Z) : bool := a <=? b.

(** [rand.dist.uni.real]: requires [a <= b] and
    [b - a <= numeric_limits<T>::max()]. *)
Definition real_precondition (T : ctype) (a b : spec_float) : bool :=
  let '(prec, emax) := real_format dm T in
  SFleb a b && SFleb (SFsub prec emax b a) (SFmax_float prec emax).

(** Constructing a distribution and applying it to the static engine;
    a violated precondition is undefined behaviour. *)
Definition sample_int (T : ctype) (a b : Z) : M Z :=
  fun s =>
    if int_precondition a b then
      let '(v, e') := uniform_int_distribution T a b (engine s) in
      Returns v (set_engine s e')
    else Undefined.

Definition sample_real (T : ctype) (a b : spec_float) : M spec_float :=
  fun s =>
    if real_precondition T a b then
      let '(v, e') := uniform_real_distribution T a b (engine s) in
      Returns v (set_engine s e')
    else Undefined.

(** *** The four bodies of [get] *)

(** random.hpp, lines 72-76 *)
Definition get_uniform_int (A : ctype) (from to : Z) : M Z :=
  if from <? to
  then sample_int A from to
  else sample_int A to from.

(** random.hpp, lines 89-93 *)
Definition get_uniform_real (A : ctype) (from to : spec_float) : M spec_float :=
  if SFltb from to
  then sample_real A from to
  else sample_real A to from.

(** random.hpp, lines 105-112.  Both casts are between integral types,
    and the inner call has two [short_t] arguments, so it is the
    uniform-int overload at [short_t]. *)
Definition get_byte (A : ctype) (from to : Z) : M Z :=
  v <- get_uniform_int (short_t A)
         (wrap dm (short_t A) from) (wrap dm (short_t A) to) ;;
  ret (wrap dm A v).

(** A single-type overload applied to two arguments of its type. *)
Definition get_single (ov : overload) (x y : value) : M value :=
  match ov, x, y with
  | OvUniformInt A, Vint a, Vint b =>
      v <- get_uniform_int A a b ;; ret (Vint v)
  | OvUniformReal A, Vreal a, Vreal b =>
      v <- get_uniform_real A a b ;; ret (Vreal v)
  | OvByte A, Vint a, Vint b =>
      v <- get_byte A a b ;; ret (Vint v)
  | _, _, _ => undefined
  end.

(** The unqualified call [get(x, y)] with both arguments of type [T],
    as the common-type body makes it: the overload is the one
    [resolve] selects. *)
Definition get_same (T : ctype) (x y : value) : M value :=
  match resolve dm Deduced T T with
  | Some ov => get_single ov x y
  | None => undefined
  end.

(** random.hpp, lines 137-139 *)
Definition get_common (A B C : ctype) (from to : value) : M value :=
  x <- defined (static_cast dm A C from) ;;
  y <- defined (static_cast dm B C to) ;;
  get_same C x y.

(** *** A call of [get] *)

(** Running the chosen overload on arguments of types [TA] and [TB].
    The parameters of a single-type overload are initialised from the
    arguments: an identity conversion when the type was deduced, an
    implicit conversion when it was given explicitly. *)
Definition invoke (ov : overload) (TA TB : ctype) (from to : value) : M value :=
  match ov with
  | OvCommon A B C => get_common A B C from to
  | _ =>
      x <- defined (static_cast dm TA (return_type ov) from) ;;
      y <- defined (static_cast dm TB (return_type ov) to) ;;
      get_single ov x y
  end.

(** [get(from, to)] or [get<K>(from, to)] with [from] of type [TA] and
    [to] of type [TB]: [None] when the call does not compile. *)
Definition get (targs : template_args) (TA TB : ctype) (from to : value)
  : option (M value) :=
  match compiles dm targs TA TB with
  | Some ov => Some (invoke ov TA TB from to)
  | None => None
  end.

(** The call run from state [s]: [None] when it does not compile. *)
Definition call (targs : template_args) (TA TB : ctype) (from to : value)
    (s : state) : option (outcome value) :=
  match get targs TA TB from to with
  | Some m => Some (m s)
  | None => None
  end.

End Sampler.

Arguments Returns {Engine World X} x s.
Arguments Undefined {Engine World X}.
Arguments engine {Engine World} s.
Arguments world {Engine World} s.
Arguments set_engine {Engine World} s e.
Arguments ret {Engine World X} x.
Arguments bind {Engine World X Y} m k.
Arguments undefined {Engine World X}.
Arguments defined {Engine World X} o.
Arguments sample_int {Engine World} uniform_int_distribution T a b.
Arguments sample_real {Engine World} dm uniform_real_distribution T a b.
Arguments get_uniform_int {Engine World} uniform_int_distribution A from to.
Arguments get_uniform_real {Engine World} dm uniform_real_distribution A from to.
Arguments get_byte {Engine World} dm uniform_int_distribution A from to.
Arguments get_single {Engine World} dm uniform_int_distribution
  uniform_real_distribution ov x y.
Arguments get_same {Engine World} dm uniform_int_distribution
  uniform_real_distribution T x y.
Arguments get_common {Engine World} dm uniform_int_distribution
  uniform_real_distribution A B C from to.
Arguments invoke {Engine World} dm uniform_int_distribution
  uniform_real_distribution ov TA TB from to.
Arguments get {Engine World} dm uniform_int_distribution
  uniform_real_distribution targs TA TB from to.
Arguments call {Engine World} dm uniform_int_distribution
  uniform_real_distribution targs TA TB from to s.

(** ** What the standard promises about the distributions *)

(** [rand.dist.uni.int]: constructed with [a <= b], the distribution
    produces integers [i] with [a <= i <= b]. *)
Definition uniform_int_contract {Engine : Type} (dm : data_model)
    (uniform_int_distribution : ctype -> Z -> Z -> Engine -> Z * Engine) : Prop :=
  forall T a b e,
    is_uniform_int T = true -> in_range dm T a -> in_range dm T b ->
    int_precondition a b = true ->
    a <= fst (uniform_int_distribution T a b e) <= b.

(** [rand.dist.uni.real]: constructed within its precondition, the
    distribution produces numbers [x] with [a <= x < b].  Only
    [a <= x <= b] is assumed here: it follows from the text of the standard,
    is all that can hold when [a = b], and leaves the convention at the
    upper end to the implementation. *)
Definition uniform_real_contract {Engine : Type} (dm : data_model)
    (uniform_real_distribution :
       ctype -> spec_float -> spec_float -> Engine -> spec_float * Engine) : Prop :=
  forall T a b e,
    is_uniform_real T = true -> real_precondition dm T a b = true ->
    SFleb a (fst (uniform_real_distribution T a b e)) = true /\
    SFleb (fst (uniform_real_distribution T a b e)) b = true.

(** A distribution is determined by the numbers [a] and [b]: parameters
    that compare equal (they can differ in the sign of a zero only) give
    the same draws. *)
Definition uniform_real_numeric {Engine : Type}
    (uniform_real_distribution :
       ctype -> spec_float -> spec_float -> Engine -> spec_float * Engine) : Prop :=
  forall T a b a' b' e,
    SFeqb a a' = true -> SFeqb b b' = true ->
    uniform_real_distribution T a b e = uniform_real_distribution T a' b' e.

(** ** A reference instance of the standard interface

    [std::default_random_engine] (random.hpp, line 153) is
    implementation-defined; the engine below is [std::minstd_rand0].  The
    two distributions are the simplest functions that meet the contracts
    of the standard: they stand for no particular library, and serve to
    run the embedding on concrete inputs. *)
Definition minstd_rand0 (x : Z) : Z := (16807 * x) mod 2147483647.

Definition reference_uniform_int (T : ctype) (a b : Z) (e : Z) : Z * Z :=
  let e' := minstd_rand0 e in
  (a + e' mod (b - a + 1), e').

(** The sign of a zero is dropped, so that the draw depends on the
    numeric value of the bounds only. *)
Definition unsigned_zero (f : spec_float) : spec_float :=
  match f with S754_zero _ => S754_zero false | _ => f end.

Definition reference_uniform_real
    (T : ctype) (a b : spec_float) (e : Z) : spec_float * Z :=
  let e' := minstd_rand0 e in
  (if Z.even e' then unsigned_zero a else unsigned_zero b, e').

(** A program state for the reference instance: the engine seeded with
    [seed], and nothing else to observe. *)
Definition reference_state (seed : Z) : state Z unit :=
  {| engine := seed; world := tt |}.

(** ** Calls that give further template arguments

    The common-type template has four parameters, [Key], [A], [B] and
    [C], and a call may give any prefix of them:
    [get<Key, A, B, C>(from, to)].  A parameter that is given is not
    deduced, and the argument in its place only has to convert to it. *)

(** An implicit conversion from [T] to [U] exists: both are arithmetic,
    or they are one type. *)
Definition implicitly_converts (T U : ctype) : bool :=
  is_same T U || (is_arithmetic T && is_arithmetic U).

(** The single-type templates have one parameter: a longer list of
    template arguments does not fit them. *)
Definition single_type_candidate_with
    (enabled : ctype -> bool) (instance : ctype -> overload)
    (targs : list ctype) (TA TB : ctype) : list overload :=
  match targs with
  | [] => single_type_candidate enabled instance Deduced TA TB
  | [K] => single_type_candidate enabled instance (Explicit K) TA TB
  | _ => []
  end.

(** The common-type template on a list of template arguments: [A] and
    [B] are the given ones or else the argument types, [C] is the given
    one or else [common_type<A, B>], and the [enable_if] condition
    (random.hpp, lines 131-136) is on [Key], [A] and [B] alone. *)
Definition common_candidate_with
    (dm : data_model) (targs : list ctype) (TA TB : ctype) : list overload :=
  match targs with
  | [] => []
  | Key :: rest =>
      if (3 <? length rest)%nat then [] else
      let A := nth 0 rest TA in
      let B := nth 1 rest TB in
      let C := match nth_error rest 2 with
               | Some C => Some C
               | None => common_type dm A B
               end in
      match C with
      | Some C =>
          if common_enabled Key A B
             && implicitly_converts TA A && implicitly_converts TB B
          then [OvCommon A B C] else []
      | None => []
      end
  end.

Definition candidates_with
    (dm : data_model) (targs : list ctype) (TA TB : ctype) : list overload :=
     single_type_candidate_with is_uniform_int OvUniformInt targs TA TB
  ++ single_type_candidate_with is_uniform_real OvUniformReal targs TA TB
  ++ single_type_candidate_with is_byte OvByte targs TA TB
  ++ common_candidate_with dm targs TA TB.

Definition resolve_with
    (dm : data_model) (targs : list ctype) (TA TB : ctype) : option overload :=
  match candidates_with dm targs TA TB with
  | [ov] => Some ov
  | _ => None
  end.

Definition compiles_with
    (dm : data_model) (targs : list ctype) (TA TB : ctype) : option overload :=
  match resolve_with dm targs TA TB with
  | Some ov => if instantiates dm ov then Some ov else None
  | None => None
  end.

Section SamplerWith.

Variable Engine : Type.
Variable World : Type.
Variable dm : data_model.
Variable uniform_int_distribution : ctype -> Z -> Z -> Engine -> Z * Engine.
Variable uniform_real_distribution :
  ctype -> spec_float -> spec_float -> Engine -> spec_float * Engine.

(** Running the chosen overload: every parameter is initialised from the
    argument in its place, also those of the common-type overload when
    [A] and [B] were given. *)
Definition invoke_with (ov : overload) (TA TB : ctype) (from to : value)
  : M Engine World value :=
  match ov with
  | OvCommon A B C =>
      bind (defined (static_cast dm TA A from)) (fun x =>
      bind (defined (static_cast dm TB B to)) (fun y =>
      get_common dm uniform_int_distribution uniform_real_distribution
        A B C x y))
  | _ =>
      invoke dm uniform_int_distribution uniform_real_distribution
        ov TA TB from to
  end.

(** [get<targs...>(from, to)] run from state [s]: [None] when the call
    does not compile. *)
Definition call_with (targs : list ctype) (TA TB : ctype) (from to : value)
    (s : state Engine World) : option (outcome Engine World value) :=
  match compiles_with dm targs TA TB with
  | Some ov => Some (invoke_with ov TA TB from to s)
  | None => None
  end.

End SamplerWith.

Arguments invoke_with {Engine World} dm uniform_int_distribution
  uniform_real_distribution ov TA TB from to.
Arguments call_with {Engine World} dm uniform_int_distribution
  uniform_real_distribution targs TA TB from to s.

(** ** Enumerations

    The types, data models and call forms are finitely many, so a
    decidable property of calls can be checked on all of them. *)

Definition all_ctypes : list ctype :=
  [Short; Int; Long; LongLong; UShort; UInt; ULong; ULongLong;
   Float; Double; LongDouble; SChar; UChar; Bool; CommonTag].

Definition all_data_models : list data_model := [ILP32; LLP64; LP64].

Definition all_template_args : list template_args :=
  Deduced :: map Explicit all_ctypes.

Definition for_all_calls
    (P : data_model -> template_args -> ctype -> ctype -> bool) : bool :=
  forallb (fun dm =>
    forallb (fun targs =>
      forallb (fun A =>
        forallb (fun B => P dm targs A B) all_ctypes)
      all_ctypes)
    all_template_args)
  all_data_models.

Definition overload_eq_dec (x y : overload) : {x = y} + {x <> y}.
Proof. decide equality; apply ctype_eq_dec. Defined.

Definition same_selection (x y : option overload) : bool :=
  match x, y with
  | Some a, Some b => if overload_eq_dec a b then true else false
  | None, None => true
  | _, _ => false
  end.

(** * Properties *)

(** ** Integral types and conversions *)

Lemma is_same_refl (T : ctype) : is_same T T = true.
Proof. unfold is_same. destruct (ctype_eq_dec T T); congruence. Qed.

Lemma is_same_true (T U : ctype) : is_same T U = true -> T = U.
Proof. unfold is_same. destruct (ctype_eq_dec T U); congruence. Qed.

(** Converting a value to a type that holds it changes nothing. *)
Lemma wrap_in_range (dm : data_model) (T : ctype) (z : Z) :
  is_integral T = true -> in_range dm T z -> wrap dm T z = z.
Proof.
  unfold in_range, wrap, min_value, max_value.
  destruct dm, T; simpl; intros HT Hz; try discriminate HT;
    try (rewrite Z.mod_small by lia); lia.
Qed.

Lemma uniform_int_is_integral (T : ctype) :
  is_uniform_int T = true -> is_integral T = true.
Proof. destruct T; simpl; intros H; try reflexivity; discriminate H. Qed.

Lemma byte_is_integral (T : ctype) :
  is_byte T = true -> is_integral T = true.
Proof. destruct T; simpl; intros H; try reflexivity; discriminate H. Qed.

(** [short_t] holds every value of its byte type. *)
Lemma byte_in_short_t (dm : data_model) (A : ctype) (z : Z) :
  is_byte A = true -> in_range dm A z -> in_range dm (short_t A) z.
Proof.
  unfold in_range, min_value, max_value.
  destruct dm, A; simpl; intros HA Hz; try discriminate HA; lia.
Qed.

(** ** Comparison of floating-point data *)

Lemma compare_cont_Eq_antisym (p q : positive) :
  Pos.compare_cont Eq q p = CompOpp (Pos.compare_cont Eq p q).
Proof. rewrite Pos.compare_cont_antisym. reflexivity. Qed.

Lemma SFcompare_antisym (a b : spec_float) :
  SFcompare b a = option_map CompOpp (SFcompare a b).
Proof.
  destruct a as [sa|sa| |sa ma ea], b as [sb|sb| |sb mb eb]; simpl;
    try reflexivity;
    try (destruct sa; reflexivity);
    try (destruct sb; reflexivity);
    try (destruct sa, sb; reflexivity).
  destruct sa, sb; simpl; try reflexivity;
    rewrite (Z.compare_antisym ea eb);
    destruct (ea ?= eb); simpl; try reflexivity;
    rewrite (compare_cont_Eq_antisym ma mb); reflexivity.
Qed.

Lemma SFcompare_None (a b : spec_float) :
  SFcompare a b = None <-> is_nan a || is_nan b = true.
Proof.
  destruct a as [sa|sa| |sa ma ea], b as [sb|sb| |sb mb eb]; simpl;
    split; intros H; try reflexivity; try discriminate H.
Qed.

Lemma SFcompare_refl (a : spec_float) :
  is_nan a = false -> SFcompare a a = Some Eq.
Proof.
  destruct a as [s|s| |s m e]; simpl; intros H; try discriminate H;
    try reflexivity.
  - destruct s; reflexivity.
  - destruct s; rewrite Z.compare_refl, Pos.compare_cont_refl; reflexivity.
Qed.

Lemma SFleb_refl (a : spec_float) : is_nan a = false -> SFleb a a = true.
Proof. intros H. unfold SFleb. rewrite (SFcompare_refl a H). reflexivity. Qed.

(** An ordered bound is not NaN. *)
Lemma SFleb_not_nan (a b : spec_float) :
  SFleb a b = true -> is_nan a = false /\ is_nan b = false.
Proof.
  unfold SFleb. intros H.
  destruct (is_nan a || is_nan b) eqn:E.
  - apply SFcompare_None in E. rewrite E in H. discriminate H.
  - apply orb_false_iff in E. exact E.
Qed.

(** Two data that are not NaN and not in order are in the other order. *)
Lemma SFltb_false_SFleb (a b : spec_float) :
  is_nan a = false -> is_nan b = false ->
  SFltb a b = false -> SFleb b a = true.
Proof.
  intros Ha Hb. unfold SFltb, SFleb. rewrite (SFcompare_antisym a b).
  destruct (SFcompare a b) as [[ | | ]|] eqn:E; simpl; intros H;
    try reflexivity; try discriminate H.
  apply SFcompare_None in E. rewrite Ha, Hb in E. discriminate E.
Qed.

Lemma SFltb_asym (a b : spec_float) : SFltb a b = true -> SFltb b a = false.
Proof.
  unfold SFltb. rewrite (SFcompare_antisym a b).
  destruct (SFcompare a b) as [[ | | ]|]; simpl; congruence.
Qed.

Lemma SFleb_antisym (a b : spec_float) :
  SFleb a b = true -> SFleb b a = true -> SFeqb a b = true.
Proof.
  unfold SFleb, SFeqb. rewrite (SFcompare_antisym a b).
  destruct (SFcompare a b) as [[ | | ]|]; simpl; congruence.
Qed.

Lemma SFeqb_sym (a b : spec_float) : SFeqb a b = SFeqb b a.
Proof.
  unfold SFeqb. rewrite (SFcompare_antisym a b).
  destruct (SFcompare a b) as [[ | | ]|]; reflexivity.
Qed.

(** Data that compare equal are the same datum, or two zeros. *)
Lemma SFeqb_inv (a b : spec_float) :
  SFeqb a b = true ->
  a = b \/ exists sa sb, a = S754_zero sa /\ b = S754_zero sb.
Proof.
  unfold SFeqb.
  destruct a as [sa|sa| |sa ma ea], b as [sb|sb| |sb mb eb]; simpl;
    intros H; try discriminate H;
    try (destruct sa; discriminate H); try (destruct sb; discriminate H).
  - right. exists sa, sb. split; reflexivity.
  - left. destruct sa, sb; try discriminate H; reflexivity.
  - left.
    assert (Hc : (ea ?= eb) = Eq /\ Pos.compare_cont Eq ma mb = Eq).
    { destruct sa, sb; try discriminate H;
        destruct (ea ?= eb); try discriminate H;
        destruct (Pos.compare_cont Eq ma mb); try discriminate H;
        split; reflexivity. }
    destruct Hc as [He Hm].
    apply Z.compare_eq in He. apply Pos.compare_eq in Hm. subst.
    destruct sa, sb; try reflexivity; discriminate H.
Qed.

(** The difference of two zeros, and of a finite datum with itself, is a
    zero: it is below the largest finite datum of every format. *)
Lemma SFsub_diag_bounded (prec emax : Z) (a : spec_float) :
  is_finite a = true ->
  SFleb (SFsub prec emax a a) (SFmax_float prec emax) = true.
Proof.
  destruct a as [s|s| |s m e]; simpl; intros H; try discriminate H.
  - destruct s; reflexivity.
  - rewrite Z.sub_diag. reflexivity.
Qed.

Lemma SFsub_zeros_bounded (prec emax : Z) (sa sb : bool) :
  SFleb (SFsub prec emax (S754_zero sa) (S754_zero sb)) (SFmax_float prec emax)
  = true.
Proof. destruct sa, sb; reflexivity. Qed.

(** ** The reference instance meets the contracts *)

Lemma SFcompare_unsigned_zero_l (a b : spec_float) :
  SFcompare (unsigned_zero a) b = SFcompare a b.
Proof. destruct a, b; reflexivity. Qed.

Lemma SFcompare_unsigned_zero_r (a b : spec_float) :
  SFcompare a (unsigned_zero b) = SFcompare a b.
Proof. destruct a, b; reflexivity. Qed.

Lemma reference_uniform_int_contract (dm : data_model) :
  uniform_int_contract dm reference_uniform_int.
Proof.
  intros T a b e _ _ _ Hab. unfold int_precondition in Hab.
  unfold reference_uniform_int. simpl.
  assert (H : 0 <= minstd_rand0 e mod (b - a + 1) < b - a + 1)
    by (apply Z.mod_pos_bound; lia).
  lia.
Qed.

Lemma reference_uniform_real_contract (dm : data_model) :
  uniform_real_contract dm reference_uniform_real.
Proof.
  intros T a b e _ Hpre. unfold real_precondition in Hpre.
  destruct (real_format dm T) as [prec emax].
  apply andb_true_iff in Hpre. destruct Hpre as [Hab _].
  destruct (SFleb_not_nan a b Hab) as [Ha Hb].
  unfold reference_uniform_real. simpl.
  destruct (Z.even (minstd_rand0 e)); unfold SFleb in *;
    rewrite ?SFcompare_unsigned_zero_l, ?SFcompare_unsigned_zero_r;
    rewrite ?(SFcompare_refl a Ha), ?(SFcompare_refl b Hb);
    split; auto.
Qed.

Lemma unsigned_zero_numeric (a a' : spec_float) :
  SFeqb a a' = true -> unsigned_zero a = unsigned_zero a'.
Proof.
  intros H. destruct (SFeqb_inv a a' H) as [E | (sa & sb & Ea & Eb)].
  - rewrite E. reflexivity.
  - rewrite Ea, Eb. reflexivity.
Qed.

Lemma reference_uniform_real_numeric :
  uniform_real_numeric reference_uniform_real.
Proof.
  intros T a b a' b' e Ha Hb. unfold reference_uniform_real.
  rewrite (unsigned_zero_numeric a a' Ha), (unsigned_zero_numeric b b' Hb).
  reflexivity.
Qed.

(** ** Which overload a call selects *)

(** A call without explicit template arguments compiles exactly when both
    arguments have one supported type, and selects the single-type
    overload of that type's category. *)
Lemma compiles_deduced (dm : data_model) (A B : ctype) (ov : overload) :
  compiles dm Deduced A B = Some ov ->
  A = B /\
  (   ov = OvUniformInt A /\ is_uniform_int A = true
   \/ ov = OvUniformReal A /\ is_uniform_real A = true
   \/ ov = OvByte A /\ is_byte A = true).
Proof.
  destruct A, B; intros H; vm_compute in H; try discriminate H;
    injection H as <-; split; try reflexivity;
    first [ left; split; reflexivity
          | right; left; split; reflexivity
          | right; right; split; reflexivity ].
Qed.

Lemma compiles_uniform_int (dm : data_model) (A : ctype) :
  is_uniform_int A = true -> compiles dm Deduced A A = Some (OvUniformInt A).
Proof. destruct A; intros H; try discriminate H; reflexivity. Qed.

Lemma compiles_uniform_real (dm : data_model) (A : ctype) :
  is_uniform_real A = true -> compiles dm Deduced A A = Some (OvUniformReal A).
Proof. destruct A; intros H; try discriminate H; reflexivity. Qed.

Lemma compiles_byte (dm : data_model) (A : ctype) :
  is_byte A = true -> compiles dm Deduced A A = Some (OvByte A).
Proof. destruct A; intros H; try discriminate H; reflexivity. Qed.

(** The common-type overload is selected exactly under its [enable_if]
    condition, and then its body instantiates. *)
Lemma compiles_common (dm : data_model) (A B : ctype) :
  common_enabled CommonTag A B = true ->
  exists C, common_type dm A B = Some C
         /\ compiles dm (Explicit CommonTag) A B = Some (OvCommon A B C)
         /\ is_supported_number C = true.
Proof.
  destruct dm, A, B; intros H; try discriminate H;
    eexists; repeat split; reflexivity.
Qed.

Lemma compiles_common_inv (dm : data_model) (A B : ctype) (ov : overload) :
  compiles dm (Explicit CommonTag) A B = Some ov ->
  common_enabled CommonTag A B = true /\
  exists C, common_type dm A B = Some C /\ ov = OvCommon A B C.
Proof.
  destruct dm, A, B; intros H; vm_compute in H; try discriminate H;
    injection H as <-; split; try reflexivity; eexists; split; reflexivity.
Qed.

(** On supported numbers the [enable_if] condition says: same signedness. *)
Lemma common_enabled_iff (A B : ctype) :
  is_supported_number A = true -> is_supported_number B = true ->
  (common_enabled CommonTag A B = true <-> is_signed A = is_signed B).
Proof.
  destruct A, B; intros HA HB; try discriminate HA; try discriminate HB;
    vm_compute; split; congruence.
Qed.

(** ** The common type of two integral types of one signedness *)

(** Under the [enable_if] condition an integral common type holds every
    value of both argument types. *)
Lemma common_type_holds (dm : data_model) (A B C : ctype) (z : Z) :
  common_enabled CommonTag A B = true ->
  common_type dm A B = Some C ->
  is_integral C = true ->
  (in_range dm A z -> in_range dm C z) /\ (in_range dm B z -> in_range dm C z).
Proof.
  intros Hen Hc Hint.
  destruct dm, A, B; try discriminate Hen;
    vm_compute in Hc; injection Hc as <-; try discriminate Hint;
    unfold in_range, min_value, max_value; simpl; lia.
Qed.

(** Converting an integer to an integral type that holds it. *)
Lemma static_cast_holds (dm : data_model) (A C : ctype) (z : Z) :
  is_supported_number C = true -> is_integral C = true ->
  in_range dm C z ->
  static_cast dm A C (Vint z) = Some (Vint z).
Proof.
  intros HC Hint Hz. unfold static_cast.
  destruct (is_same A C); [reflexivity|].
  destruct C; try discriminate HC; try discriminate Hint; simpl;
    rewrite wrap_in_range by (try reflexivity; exact Hz); reflexivity.
Qed.

Lemma resolve_deduced_supported (dm : data_model) (C : ctype) :
  is_supported_number C = true ->
  resolve dm Deduced C C = compiles dm Deduced C C
  /\ compiles dm Deduced C C <> None.
Proof.
  destruct C; intros H; try discriminate H; split;
    try reflexivity; discriminate.
Qed.

Lemma supported_integral (C : ctype) :
  is_supported_number C = true -> is_integral C = true ->
  is_uniform_int C || is_byte C = true.
Proof. destruct C; intros H1 H2; try discriminate; reflexivity. Qed.

(** ** The bodies of [get] *)

Section Properties.

#[local] Set Warnings "-notation-for-abbreviation".

Variables Engine World : Type.
Variable dm : data_model.
Variable uniform_int_distribution : ctype -> Z -> Z -> Engine -> Z * Engine.
Variable uniform_real_distribution :
  ctype -> spec_float -> spec_float -> Engine -> spec_float * Engine.

Hypothesis int_contract : uniform_int_contract dm uniform_int_distribution.
Hypothesis real_contract : uniform_real_contract dm uniform_real_distribution.
Hypothesis real_numeric : uniform_real_numeric uniform_real_distribution.

Local Notation state := (state Engine World).
Local Notation sample_int := (sample_int uniform_int_distribution).
Local Notation sample_real := (sample_real dm uniform_real_distribution).
Local Notation get_uniform_int := (get_uniform_int uniform_int_distribution).
Local Notation get_uniform_real :=
  (get_uniform_real dm uniform_real_distribution).
Local Notation get_byte := (get_byte dm uniform_int_distribution).
Local Notation get_single :=
  (get_single dm uniform_int_distribution uniform_real_distribution).
Local Notation get_same :=
  (get_same dm uniform_int_distribution uniform_real_distribution).
Local Notation get_common :=
  (get_common dm uniform_int_distribution uniform_real_distribution).
Local Notation invoke :=
  (invoke dm uniform_int_distribution uniform_real_distribution).
Local Notation call :=
  (call dm uniform_int_distribution uniform_real_distribution).

(** *** Drawing *)

Lemma sample_int_returns (T : ctype) (a b : Z) (s : state) :
  a <= b ->
  sample_int T a b s =
  Returns (fst (uniform_int_distribution T a b (engine s)))
          (set_engine s (snd (uniform_int_distribution T a b (engine s)))).
Proof.
  intros Hab. unfold sample_int, int_precondition.
  rewrite (proj2 (Z.leb_le a b) Hab).
  destruct (uniform_int_distribution T a b (engine s)); reflexivity.
Qed.

Lemma sample_real_returns (T : ctype) (a b : spec_float) (s : state) :
  real_precondition dm T a b = true ->
  sample_real T a b s =
  Returns (fst (uniform_real_distribution T a b (engine s)))
          (set_engine s (snd (uniform_real_distribution T a b (engine s)))).
Proof.
  intros Hpre. unfold sample_real. rewrite Hpre.
  destruct (uniform_real_distribution T a b (engine s)); reflexivity.
Qed.

Lemma sample_real_undefined (T : ctype) (a b : spec_float) (s : state) :
  real_precondition dm T a b = false -> sample_real T a b s = Undefined.
Proof. intros Hpre. unfold sample_real. rewrite Hpre. reflexivity. Qed.

(** The uniform-int body makes one draw between the smaller and the
    larger bound. *)
Lemma get_uniform_int_draw (A : ctype) (from to : Z) (s : state) :
  get_uniform_int A from to s
  = sample_int A (Z.min from to) (Z.max from to) s.
Proof.
  unfold get_uniform_int. destruct (Z.ltb_spec from to).
  - rewrite Z.min_l, Z.max_r by lia. reflexivity.
  - rewrite Z.min_r, Z.max_l by lia. reflexivity.
Qed.

Lemma get_uniform_int_range (A : ctype) (from to : Z) (s : state) :
  is_uniform_int A = true -> in_range dm A from -> in_range dm A to ->
  exists v s',
    get_uniform_int A from to s = Returns v s'
    /\ Z.min from to <= v <= Z.max from to
    /\ world s' = world s.
Proof.
  intros HA Hfrom Hto.
  rewrite get_uniform_int_draw, sample_int_returns by lia.
  eexists. eexists. split; [reflexivity|]. split; [|reflexivity].
  apply int_contract; auto.
  - unfold in_range in *. lia.
  - unfold in_range in *. lia.
  - unfold int_precondition. lia.
Qed.

(** A call whose template argument is deduced runs the selected
    single-type overload on the arguments as they are. *)
Lemma call_deduced (A : ctype) (ov : overload) (x y : value) (s : state) :
  compiles dm Deduced A A = Some ov ->
  call Deduced A A x y s = Some (get_single ov x y s).
Proof.
  intros H. unfold call, get. rewrite H.
  destruct (compiles_deduced _ _ _ _ H) as [_ [[-> _]|[[-> _]|[-> _]]]];
    unfold invoke, static_cast; simpl return_type;
    rewrite is_same_refl; reflexivity.
Qed.

(** C2. For every type accepted by [is_uniform_int] and every pair of
    bounds of that type, the call [get(from, to)] returns, and what it
    returns lies between the smaller and the larger bound, both
    included. *)
Theorem get_integral_in_range (A : ctype) (from to : Z) (s : state) :
  is_uniform_int A = true -> in_range dm A from -> in_range dm A to ->
  exists v s',
    call Deduced A A (Vint from) (Vint to) s = Some (Returns (Vint v) s')
    /\ Z.min from to <= v <= Z.max from to.
Proof.
  intros HA Hfrom Hto.
  rewrite (call_deduced A _ _ _ s (compiles_uniform_int dm A HA)).
  destruct (get_uniform_int_range A from to s HA Hfrom Hto)
    as (v & s' & Hget & Hv & _).
  exists v, s'. split; [|exact Hv].
  simpl. unfold bind. rewrite Hget. reflexivity.
Qed.

(** *** Bytes *)

Lemma short_t_uniform_int (A : ctype) : is_uniform_int (short_t A) = true.
Proof. destruct A; reflexivity. Qed.

(** The byte body: the bounds reach the uniform-int overload unchanged,
    and what it draws comes back unchanged. *)
Lemma get_byte_range (A : ctype) (from to : Z) (s : state) :
  is_byte A = true -> in_range dm A from -> in_range dm A to ->
  exists v s',
    get_uniform_int (short_t A) from to s = Returns v s'
    /\ get_byte A from to s = Returns v s'
    /\ Z.min from to <= v <= Z.max from to
    /\ in_range dm A v
    /\ world s' = world s.
Proof.
  intros HA Hfrom Hto.
  pose proof (byte_in_short_t dm A from HA Hfrom) as Hfrom'.
  pose proof (byte_in_short_t dm A to HA Hto) as Hto'.
  pose proof (short_t_uniform_int A) as HS.
  destruct (get_uniform_int_range (short_t A) from to s HS Hfrom' Hto')
    as (v & s' & Hget & Hv & Hw).
  assert (Hin : in_range dm A v) by (unfold in_range in *; lia).
  exists v, s'.
  split; [exact Hget|]. split; [|split; [exact Hv|split; [exact Hin|exact Hw]]].
  unfold get_byte, bind.
  rewrite !wrap_in_range by (auto using uniform_int_is_integral).
  rewrite Hget. unfold ret.
  rewrite wrap_in_range by (auto using byte_is_integral). reflexivity.
Qed.

(** C5. For [signed char] and [unsigned char], [get(from, to)] goes
    through the 16-bit type of the same signedness: [short_t] is [short]
    for the signed byte and [unsigned short] for the unsigned one, the
    call returns what the uniform-int overload at [short_t] draws for the
    same two bounds, and that value is a value of the byte type and lies
    between the smaller and the larger bound. *)
Theorem get_byte_widens_and_narrows (A : ctype) (from to : Z) (s : state) :
  is_byte A = true -> in_range dm A from -> in_range dm A to ->
  short_t A = (if is_signed A then Short else UShort)
  /\ bits dm (short_t A) = 16
  /\ wrap dm (short_t A) from = from
  /\ wrap dm (short_t A) to = to
  /\ exists v s',
       get_uniform_int (short_t A) from to s = Returns v s'
       /\ wrap dm A v = v
       /\ call Deduced A A (Vint from) (Vint to) s = Some (Returns (Vint v) s')
       /\ in_range dm A v
       /\ Z.min from to <= v <= Z.max from to.
Proof.
  intros HA Hfrom Hto.
  split; [reflexivity|].
  split; [destruct A; try discriminate HA; reflexivity|].
  pose proof (short_t_uniform_int A) as HS.
  split; [apply wrap_in_range;
          auto using uniform_int_is_integral, byte_in_short_t|].
  split; [apply wrap_in_range;
          auto using uniform_int_is_integral, byte_in_short_t|].
  destruct (get_byte_range A from to s HA Hfrom Hto)
    as (v & s' & Hint & Hbyte & Hv & Hin & _).
  exists v, s'.
  split; [exact Hint|].
  split; [apply wrap_in_range; auto using byte_is_integral|].
  split; [|split; [exact Hin|exact Hv]].
  rewrite (call_deduced A _ _ _ s (compiles_byte dm A HA)).
  simpl. unfold bind. rewrite Hbyte. reflexivity.
Qed.

(** *** Floating-point bounds *)

Lemma SFcompare_zero_l (sa sb : bool) (v : spec_float) :
  SFcompare (S754_zero sa) v = SFcompare (S754_zero sb) v.
Proof. destruct v; reflexivity. Qed.

(** Bounds that are not NaN and of which neither is below the other
    compare equal. *)
Lemma SFltb_false_SFeqb (a b : spec_float) :
  is_nan a = false -> is_nan b = false ->
  SFltb a b = false -> SFltb b a = false -> SFeqb a b = true.
Proof.
  intros Ha Hb Hab Hba. apply SFleb_antisym.
  - apply SFltb_false_SFleb; assumption.
  - apply SFltb_false_SFleb; assumption.
Qed.

(** Swapping bounds that compare equal does not touch the precondition. *)
Lemma real_precondition_eqb (T : ctype) (a b : spec_float) :
  SFeqb a b = true ->
  real_precondition dm T a b = real_precondition dm T b a.
Proof.
  intros H. destruct (SFeqb_inv a b H) as [-> | (sa & sb & -> & ->)].
  - reflexivity.
  - unfold real_precondition. destruct (real_format dm T) as [prec emax].
    rewrite !SFsub_zeros_bounded. reflexivity.
Qed.

(** With a NaN among the bounds the precondition fails in both orders. *)
Lemma real_precondition_nan (T : ctype) (a b : spec_float) :
  is_nan a || is_nan b = true -> real_precondition dm T a b = false.
Proof.
  intros H. unfold real_precondition. destruct (real_format dm T) as [prec emax].
  unfold SFleb at 1. rewrite (proj2 (SFcompare_None a b) H). reflexivity.
Qed.

Lemma get_uniform_real_swap (A : ctype) (a b : spec_float) (s : state) :
  get_uniform_real A a b s = get_uniform_real A b a s.
Proof.
  unfold get_uniform_real.
  destruct (SFltb a b) eqn:Hab.
  - rewrite (SFltb_asym a b Hab). reflexivity.
  - destruct (SFltb b a) eqn:Hba; [reflexivity|].
    destruct (is_nan a || is_nan b) eqn:Hnan.
    + rewrite !sample_real_undefined; [reflexivity| |].
      * apply real_precondition_nan. exact Hnan.
      * apply real_precondition_nan. rewrite orb_comm. exact Hnan.
    + apply orb_false_iff in Hnan. destruct Hnan as [Ha Hb].
      pose proof (SFltb_false_SFeqb a b Ha Hb Hab Hba) as Heq.
      pose proof Heq as Heq'. rewrite SFeqb_sym in Heq'.
      unfold sample_real.
      rewrite (real_precondition_eqb A a b Heq).
      rewrite (real_numeric A a b b a (engine s) Heq Heq').
      reflexivity.
Qed.

(** The uniform-real body on bounds that are not NaN and whose distance
    the type can hold. *)
Lemma get_uniform_real_range (A : ctype) (from to : spec_float) (s : state) :
  is_uniform_real A = true ->
  is_nan from = false -> is_nan to = false ->
  real_precondition dm A (SFmin from to) (SFmax from to) = true ->
  exists v s',
    get_uniform_real A from to s = Returns v s'
    /\ SFleb (SFmin from to) v = true
    /\ SFleb v (SFmax from to) = true
    /\ world s' = world s.
Proof.
  intros HA Hfrom Hto. unfold SFmin, SFmax, get_uniform_real.
  destruct (SFltb from to) eqn:Hlt.
  - rewrite (SFltb_asym from to Hlt). intros Hpre.
    rewrite (sample_real_returns A from to s Hpre).
    destruct (real_contract A from to (engine s) HA Hpre) as [Hlo Hhi].
    eexists. eexists. repeat split; eassumption.
  - destruct (SFltb to from) eqn:Hgt; intros Hpre.
    + rewrite (sample_real_returns A to from s Hpre).
      destruct (real_contract A to from (engine s) HA Hpre) as [Hlo Hhi].
      eexists. eexists. repeat split; eassumption.
    + pose proof (SFltb_false_SFeqb from to Hfrom Hto Hlt Hgt) as Heq.
      assert (Hpre' : real_precondition dm A to from = true).
      { rewrite <- (real_precondition_eqb A from to Heq).
        destruct (SFeqb_inv from to Heq) as [<- | (sa & sb & -> & ->)].
        - exact Hpre.
        - unfold real_precondition.
          destruct (real_format dm A) as [prec emax].
          rewrite SFsub_zeros_bounded. reflexivity. }
      rewrite (sample_real_returns A to from s Hpre').
      destruct (real_contract A to from (engine s) HA Hpre') as [Hlo Hhi].
      eexists. eexists. repeat split; try eassumption.
      destruct (SFeqb_inv from to Heq) as [-> | (sa & sb & -> & ->)].
      * exact Hlo.
      * unfold SFleb in *. rewrite (SFcompare_zero_l sa sb). exact Hlo.
Qed.

(** *** Calls on one type *)

Lemma call_not_compiled (targs : template_args) (A B : ctype)
    (x y : value) (s : state) :
  compiles dm targs A B = None -> call targs A B x y s = None.
Proof. intros H. unfold call, get. rewrite H. reflexivity. Qed.

Lemma call_uniform_int (A : ctype) (from to : Z) (s : state) :
  is_uniform_int A = true ->
  call Deduced A A (Vint from) (Vint to) s
  = Some (bind (get_uniform_int A from to) (fun v => ret (Vint v)) s).
Proof.
  intros HA. rewrite (call_deduced A _ _ _ s (compiles_uniform_int dm A HA)).
  reflexivity.
Qed.

Lemma call_uniform_real (A : ctype) (from to : spec_float) (s : state) :
  is_uniform_real A = true ->
  call Deduced A A (Vreal from) (Vreal to) s
  = Some (bind (get_uniform_real A from to) (fun v => ret (Vreal v)) s).
Proof.
  intros HA. rewrite (call_deduced A _ _ _ s (compiles_uniform_real dm A HA)).
  reflexivity.
Qed.

Lemma call_byte (A : ctype) (from to : Z) (s : state) :
  is_byte A = true ->
  call Deduced A A (Vint from) (Vint to) s
  = Some (bind (get_byte A from to) (fun v => ret (Vint v)) s).
Proof.
  intros HA. rewrite (call_deduced A _ _ _ s (compiles_byte dm A HA)).
  reflexivity.
Qed.

(** A call on two in-range bounds of one integral or byte type returns a
    value between them. *)
Lemma call_integral_range (A : ctype) (from to : Z) (s : state) :
  is_uniform_int A || is_byte A = true ->
  in_range dm A from -> in_range dm A to ->
  exists v s',
    call Deduced A A (Vint from) (Vint to) s = Some (Returns (Vint v) s')
    /\ Z.min from to <= v <= Z.max from to.
Proof.
  intros HA Hfrom Hto. apply orb_true_iff in HA. destruct HA as [HA | HA].
  - destruct (get_uniform_int_range A from to s HA Hfrom Hto)
      as (v & s' & Hget & Hv & _).
    exists v, s'. split; [|exact Hv].
    rewrite (call_uniform_int A from to s HA). unfold bind. rewrite Hget.
    reflexivity.
  - destruct (get_byte_range A from to s HA Hfrom Hto)
      as (v & s' & _ & Hget & Hv & _).
    exists v, s'. split; [|exact Hv].
    rewrite (call_byte A from to s HA). unfold bind. rewrite Hget.
    reflexivity.
Qed.

Lemma get_single_swap (ov : overload) (x y : value) (s : state) :
  get_single ov x y s = get_single ov y x s.
Proof.
  destruct ov as [A|A|A|A B C], x as [a|a], y as [b|b]; try reflexivity;
    simpl; unfold bind.
  - rewrite !get_uniform_int_draw, Z.min_comm, Z.max_comm. reflexivity.
  - rewrite (get_uniform_real_swap A a b s). reflexivity.
  - unfold get_byte, bind.
    rewrite !get_uniform_int_draw, Z.min_comm, Z.max_comm. reflexivity.
Qed.

(** C3. [get] is swap-invariant: for every type and every two bounds,
    [get(from, to)] and [get(to, from)] started from one state return the
    same value and leave the same state (and for a type [get] does not
    accept, neither call compiles).  For the floating-point types this
    rests on the distribution being determined by the numbers [a] and
    [b]: two zeros of opposite sign are the one pair of bounds of which
    neither is below the other while they are two different data. *)
Theorem get_swap_invariant (A : ctype) (from to : value) (s : state) :
  call Deduced A A from to s = call Deduced A A to from s.
Proof.
  destruct (compiles dm Deduced A A) as [ov|] eqn:H.
  - rewrite !(call_deduced A ov _ _ s H).
    rewrite (get_single_swap ov from to s). reflexivity.
  - rewrite !call_not_compiled by exact H. reflexivity.
Qed.

(** C4, as amended.  With both bounds equal to [x], [get(x, x)] returns
    exactly [x] for every integral and byte type; for a floating-point
    type and a finite [x] it returns a datum that compares equal to
    [x]. *)
Theorem get_equal_bounds (A : ctype) (s : state) :
  (forall x : Z,
     is_uniform_int A || is_byte A = true -> in_range dm A x ->
     exists s',
       call Deduced A A (Vint x) (Vint x) s = Some (Returns (Vint x) s'))
  /\
  (forall x : spec_float,
     is_uniform_real A = true -> is_finite x = true ->
     exists v s',
       call Deduced A A (Vreal x) (Vreal x) s = Some (Returns (Vreal v) s')
       /\ SFeqb v x = true).
Proof.
  split.
  - intros x HA Hx.
    destruct (call_integral_range A x x s HA Hx Hx) as (v & s' & Hcall & Hv).
    rewrite Z.min_id, Z.max_id in Hv.
    assert (v = x) as -> by lia. exists s'. exact Hcall.
  - intros x HA Hx.
    assert (Hnan : is_nan x = false) by (destruct x; try discriminate Hx; reflexivity).
    assert (Hpre : real_precondition dm A x x = true).
    { unfold real_precondition. destruct (real_format dm A) as [prec emax].
      rewrite (SFleb_refl x Hnan), (SFsub_diag_bounded prec emax x Hx).
      reflexivity. }
    destruct (real_contract A x x (engine s) HA Hpre) as [Hlo Hhi].
    eexists. eexists. split.
    + rewrite (call_uniform_real A x x s HA).
      unfold bind, get_uniform_real.
      assert (Hlt : SFltb x x = false).
      { unfold SFltb. rewrite (SFcompare_refl x Hnan). reflexivity. }
      rewrite Hlt, (sample_real_returns A x x s Hpre). reflexivity.
    + apply SFleb_antisym; assumption.
Qed.

(** Within the precondition of the distribution the documented range
    holds: for every floating-point type and every pair of bounds of
    which neither is NaN and whose distance, once ordered, the type can
    hold, [get(from, to)] returns a value between the smaller and the
    larger bound, both ends included. *)
Lemma get_real_in_range (A : ctype) (from to : spec_float) (s : state) :
  is_uniform_real A = true ->
  is_nan from = false -> is_nan to = false ->
  real_precondition dm A (SFmin from to) (SFmax from to) = true ->
  exists v s',
    call Deduced A A (Vreal from) (Vreal to) s = Some (Returns (Vreal v) s')
    /\ SFleb (SFmin from to) v = true
    /\ SFleb v (SFmax from to) = true.
Proof.
  intros HA Hfrom Hto Hpre.
  destruct (get_uniform_real_range A from to s HA Hfrom Hto Hpre)
    as (v & s' & Hget & Hlo & Hhi & _).
  exists v, s'. split; [|split; assumption].
  rewrite (call_uniform_real A from to s HA). unfold bind. rewrite Hget.
  reflexivity.
Qed.

(** *** The common-type overload *)

Lemma supported_floating (C : ctype) :
  is_supported_number C = true -> is_floating_point C = true ->
  is_uniform_real C = true.
Proof. destruct C; intros H1 H2; try discriminate; reflexivity. Qed.

(** A call on two bounds of one floating-point type, neither NaN and
    within the precondition of the distribution once ordered, returns a
    value between them. *)
Lemma call_real_range (A : ctype) (from to : spec_float) (s : state) :
  is_uniform_real A = true ->
  is_nan from = false -> is_nan to = false ->
  real_precondition dm A (SFmin from to) (SFmax from to) = true ->
  exists v s',
    call Deduced A A (Vreal from) (Vreal to) s = Some (Returns (Vreal v) s')
    /\ SFleb (SFmin from to) v = true
    /\ SFleb v (SFmax from to) = true.
Proof.
  intros HA Hfrom Hto Hpre.
  destruct (get_uniform_real_range A from to s HA Hfrom Hto Hpre)
    as (v & s' & Hget & Hlo & Hhi & _).
  exists v, s'. split; [|split; assumption].
  rewrite (call_uniform_real A from to s HA). unfold bind. rewrite Hget.
  reflexivity.
Qed.

(** The common-type call is the single-type call at the common type on
    the two converted bounds. *)
Lemma call_common (A B C : ctype) (from to x y : value) (s : state) :
  compiles dm (Explicit CommonTag) A B = Some (OvCommon A B C) ->
  static_cast dm A C from = Some x ->
  static_cast dm B C to = Some y ->
  call (Explicit CommonTag) A B from to s = call Deduced C C x y s.
Proof.
  intros H Hx Hy.
  assert (HC : is_supported_number C = true).
  { destruct (compiles_common_inv dm A B _ H) as [Hen (C' & HC' & E)].
    destruct (compiles_common dm A B Hen) as (C'' & HC'' & _ & Hsup).
    congruence. }
  unfold call at 1, get. rewrite H.
  unfold invoke, get_common. rewrite Hx, Hy.
  unfold defined, bind, ret, get_same.
  destruct (resolve_deduced_supported dm C HC) as [-> Hsome].
  destruct (compiles dm Deduced C C) as [ov|] eqn:E; [|congruence].
  rewrite (call_deduced C ov _ _ s E). reflexivity.
Qed.

Lemma call_common_range (A B : ctype) (from to : Z) (s : state) :
  common_enabled CommonTag A B = true ->
  in_range dm A from -> in_range dm B to ->
  forall C, common_type dm A B = Some C -> is_integral C = true ->
  exists v s',
    call (Explicit CommonTag) A B (Vint from) (Vint to) s
    = Some (Returns (Vint v) s')
    /\ Z.min from to <= v <= Z.max from to.
Proof.
  intros Hen Hfrom Hto C HC Hint.
  destruct (compiles_common dm A B Hen) as (C' & HC' & Hcomp & Hsup).
  assert (C' = C) as -> by congruence.
  pose proof (proj1 (common_type_holds dm A B C from Hen HC Hint) Hfrom) as Hf.
  pose proof (proj2 (common_type_holds dm A B C to Hen HC Hint) Hto) as Ht.
  rewrite (call_common A B C (Vint from) (Vint to) (Vint from) (Vint to) s Hcomp)
    by (apply static_cast_holds; assumption).
  apply (call_integral_range C from to s (supported_integral C Hsup Hint) Hf Ht).
Qed.

(** C1, as amended.  For two supported number types, [get<common>(from,
    to)] compiles exactly when both types have the same signedness; a
    call with one signed and one unsigned type is rejected.  When it
    compiles, the overload is instantiated at the common type [C] of the
    two, which is again a supported number type, and the call is the
    single-type call [get(static_cast<C>(from), static_cast<C>(to))].
    When [C] is integral, both casts keep the bounds and the value
    returned lies between the smaller and the larger bound; when [C] is
    a floating-point type, the value returned lies between the converted
    bounds, provided neither is NaN and they are within the precondition
    of the distribution. *)
Theorem common_overload_same_signedness (A B : ctype) :
  is_supported_number A = true -> is_supported_number B = true ->
  (compiles dm (Explicit CommonTag) A B <> None <-> is_signed A = is_signed B)
  /\
  (is_signed A = is_signed B ->
   exists C,
     common_type dm A B = Some C
     /\ compiles dm (Explicit CommonTag) A B = Some (OvCommon A B C)
     /\ is_supported_number C = true
     /\ (forall (from to x y : value) (s : state),
           static_cast dm A C from = Some x ->
           static_cast dm B C to = Some y ->
           call (Explicit CommonTag) A B from to s = call Deduced C C x y s)
     /\ (is_integral C = true ->
         forall (from to : Z) (s : state),
           in_range dm A from -> in_range dm B to ->
           static_cast dm A C (Vint from) = Some (Vint from)
           /\ static_cast dm B C (Vint to) = Some (Vint to)
           /\ exists v s',
                call (Explicit CommonTag) A B (Vint from) (Vint to) s
                = Some (Returns (Vint v) s')
                /\ Z.min from to <= v <= Z.max from to)
     /\ (is_floating_point C = true ->
         forall (from to : value) (a b : spec_float) (s : state),
           static_cast dm A C from = Some (Vreal a) ->
           static_cast dm B C to = Some (Vreal b) ->
           is_nan a = false -> is_nan b = false ->
           real_precondition dm C (SFmin a b) (SFmax a b) = true ->
           exists v s',
             call (Explicit CommonTag) A B from to s
             = Some (Returns (Vreal v) s')
             /\ SFleb (SFmin a b) v = true
             /\ SFleb v (SFmax a b) = true)).
Proof.
  intros HA HB. pose proof (common_enabled_iff A B HA HB) as Hiff. split.
  - split.
    + intros Hc. apply Hiff.
      destruct (compiles dm (Explicit CommonTag) A B) as [ov|] eqn:E;
        [|congruence].
      apply (compiles_common_inv dm A B ov E).
    + intros Hs. apply Hiff in Hs.
      destruct (compiles_common dm A B Hs) as (C & _ & -> & _). discriminate.
  - intros Hs. apply Hiff in Hs.
    destruct (compiles_common dm A B Hs) as (C & HC & Hcomp & Hsup).
    exists C. split; [exact HC|]. split; [exact Hcomp|]. split; [exact Hsup|].
    split; [|split].
    + intros from to x y s Hx Hy. apply (call_common A B C); assumption.
    + intros Hint from to s Hfrom Hto.
      pose proof (proj1 (common_type_holds dm A B C from Hs HC Hint) Hfrom) as Hf.
      pose proof (proj2 (common_type_holds dm A B C to Hs HC Hint) Hto) as Ht.
      split; [apply static_cast_holds; assumption|].
      split; [apply static_cast_holds; assumption|].
      apply (call_common_range A B from to s Hs Hfrom Hto C HC Hint).
    + intros Hfl from to a b s Hx Hy Ha Hb Hpre.
      rewrite (call_common A B C from to _ _ s Hcomp Hx Hy).
      apply call_real_range; auto using supported_floating.
Qed.

(** *** Every call returns *)

Lemma uniform_real_not_integral (A : ctype) :
  is_uniform_real A = true -> is_integral A = false.
Proof. destruct A; intros H; try discriminate H; reflexivity. Qed.

Lemma integral_not_floating (A : ctype) :
  is_uniform_int A || is_byte A = true -> is_floating_point A = false.
Proof. destruct A; intros H; try discriminate H; reflexivity. Qed.

Lemma static_cast_same (A : ctype) (v : value) :
  static_cast dm A A v = Some v.
Proof. unfold static_cast. rewrite is_same_refl. reflexivity. Qed.

(** C8, as amended.  A call [get(from, to)] or [get<common>(from, to)]
    does not compile unless both argument types are supported numbers.
    When it compiles with an integral result type, it returns a value
    for all bounds of its argument types.  When it compiles with a
    floating-point result type, it returns a value for all bounds that,
    converted to the result type, are not NaN and are within the
    precondition of the distribution once ordered. *)
Theorem get_always_returns (targs : template_args) (A B : ctype) :
  targs = Deduced \/ targs = Explicit CommonTag ->
  (is_supported_number A && is_supported_number B = false ->
   compiles dm targs A B = None)
  /\
  (forall ov (from to : Z) (s : state),
     compiles dm targs A B = Some ov ->
     is_integral (return_type ov) = true ->
     in_range dm A from -> in_range dm B to ->
     exists v s',
       call targs A B (Vint from) (Vint to) s = Some (Returns (Vint v) s'))
  /\
  (forall ov (from to : value) (a b : spec_float) (s : state),
     compiles dm targs A B = Some ov ->
     is_floating_point (return_type ov) = true ->
     static_cast dm A (return_type ov) from = Some (Vreal a) ->
     static_cast dm B (return_type ov) to = Some (Vreal b) ->
     is_nan a = false -> is_nan b = false ->
     real_precondition dm (return_type ov) (SFmin a b) (SFmax a b) = true ->
     exists v s',
       call targs A B from to s = Some (Returns (Vreal v) s')).
Proof.
  intros Htargs. split; [|split].
  - intros Hsup.
    destruct (compiles dm targs A B) as [ov|] eqn:E; [exfalso|reflexivity].
    destruct Htargs as [-> | ->].
    + destruct (compiles_deduced dm A B ov E) as [<- Hcat].
      assert (is_supported_number A = true) as HA
        by (unfold is_supported_number;
            destruct Hcat as [[_ ->]|[[_ ->]|[_ ->]]];
            rewrite ?orb_true_r; reflexivity).
      rewrite HA in Hsup. discriminate Hsup.
    + destruct (compiles_common_inv dm A B ov E) as [Hen _].
      unfold common_enabled in Hen. rewrite is_same_refl in Hen. simpl in Hen.
      apply andb_true_iff in Hen. destruct Hen as [Hen _].
      rewrite Hen in Hsup. discriminate Hsup.
  - intros ov from to s Hc Hint Hfrom Hto.
    destruct Htargs as [-> | ->].
    + destruct (compiles_deduced dm A B ov Hc) as [<- Hcat].
      assert (HA : is_uniform_int A || is_byte A = true).
      { destruct Hcat as [[_ ->]|[[-> HR]|[_ ->]]];
          rewrite ?orb_true_r; try reflexivity.
        simpl in Hint. rewrite (uniform_real_not_integral A HR) in Hint.
        discriminate Hint. }
      destruct (call_integral_range A from to s HA Hfrom Hto)
        as (v & s' & Hcall & _).
      exists v, s'. exact Hcall.
    + destruct (compiles_common_inv dm A B ov Hc) as [Hen (C & HC & ->)].
      destruct (call_common_range A B from to s Hen Hfrom Hto C HC Hint)
        as (v & s' & Hcall & _).
      exists v, s'. exact Hcall.
  - intros ov from to a b s Hc Hfl Hx Hy Ha Hb Hpre.
    destruct Htargs as [-> | ->].
    + destruct (compiles_deduced dm A B ov Hc) as [<- Hcat].
      assert (HA : is_uniform_real A = true /\ return_type ov = A).
      { destruct Hcat as [[-> HI]|[[-> HR]|[-> HY]]]; simpl in Hfl.
        - rewrite integral_not_floating in Hfl by (rewrite HI; reflexivity).
          discriminate Hfl.
        - split; [exact HR|reflexivity].
        - rewrite integral_not_floating in Hfl
            by (rewrite HY; apply orb_true_r).
          discriminate Hfl. }
      destruct HA as [HA Hret]. rewrite Hret in *.
      rewrite static_cast_same in Hx, Hy.
      injection Hx as ->. injection Hy as ->.
      destruct (call_real_range A a b s HA Ha Hb Hpre) as (v & s' & Hcall & _).
      exists v, s'. exact Hcall.
    + destruct (compiles_common_inv dm A B ov Hc) as [Hen (C & HC & ->)].
      simpl in *.
      destruct (compiles_common dm A B Hen) as (C' & HC' & _ & Hsup).
      assert (C' = C) as -> by congruence.
      rewrite (call_common A B C from to _ _ s Hc Hx Hy).
      destruct (call_real_range C a b s (supported_floating C Hsup Hfl) Ha Hb Hpre)
        as (v & s' & Hcall & _).
      exists v, s'. exact Hcall.
Qed.

End Properties.

(** ** Result type and template arguments *)

Lemma common_type_same (dm : data_model) (A : ctype) :
  common_type dm A A = Some A.
Proof. unfold common_type. rewrite is_same_refl. reflexivity. Qed.

(** C7. The result type of a call [get(from, to)] or
    [get<common>(from, to)] that compiles is the common type of the two
    argument types, and it is the argument type when both arguments
    have one type. *)
Theorem get_return_type (dm : data_model) (targs : template_args)
    (A B : ctype) (ov : overload) :
  targs = Deduced \/ targs = Explicit CommonTag ->
  compiles dm targs A B = Some ov ->
  common_type dm A B = Some (return_type ov)
  /\ (A = B -> return_type ov = A).
Proof.
  intros [-> | ->] H.
  - destruct (compiles_deduced dm A B ov H) as [<- Hcat].
    assert (Hret : return_type ov = A)
      by (destruct Hcat as [[-> _]|[[-> _]|[-> _]]]; reflexivity).
    rewrite Hret. split; [apply common_type_same|reflexivity].
  - destruct (compiles_common_inv dm A B ov H) as [_ (C & HC & ->)].
    simpl. split; [exact HC|].
    intros <-. rewrite common_type_same in HC. congruence.
Qed.

Lemma single_type_candidate_not_common
    (enabled : ctype -> bool) (instance : ctype -> overload)
    (targs : template_args) (TA TB : ctype) (ov : overload) :
  In ov (single_type_candidate enabled instance targs TA TB) ->
  exists T, ov = instance T.
Proof.
  unfold single_type_candidate. destruct targs as [|K].
  - destruct (is_same TA TB && enabled TA); simpl; intros H;
      [destruct H as [<- | []]; eauto | destruct H].
  - destruct (enabled K && is_arithmetic TA && is_arithmetic TB); simpl;
      intros H; [destruct H as [<- | []]; eauto | destruct H].
Qed.

Lemma common_candidate_key (dm : data_model) (targs : template_args)
    (TA TB : ctype) (ov : overload) :
  In ov (common_candidate dm targs TA TB) -> targs = Explicit CommonTag.
Proof.
  unfold common_candidate. destruct targs as [|K]; [intros []|].
  destruct (common_type dm TA TB) as [C|]; [|intros []].
  destruct (common_enabled K TA TB) eqn:E; [|intros []].
  intros _. unfold common_enabled in E.
  destruct (is_same K CommonTag) eqn:EK; [|discriminate E].
  apply is_same_true in EK. rewrite EK. reflexivity.
Qed.

Lemma resolve_in_candidates (dm : data_model) (targs : template_args)
    (A B : ctype) (ov : overload) :
  resolve dm targs A B = Some ov -> In ov (candidates dm targs A B).
Proof.
  unfold resolve. destruct (candidates dm targs A B) as [|c [|c' l]];
    intros H; try discriminate H. injection H as ->. left. reflexivity.
Qed.

Lemma is_same_false (T U : ctype) : T <> U -> is_same T U = false.
Proof. unfold is_same. destruct (ctype_eq_dec T U); congruence. Qed.

(** C10. The common-type overload is selected only by a call that gives
    the tag type [common] as its first template argument.  A call that
    gives no template argument and has two arguments of different types
    resolves to no overload at all and does not compile, and this is so
    for every pair of types, those the [enable_if] condition of the
    common-type overload accepts included. *)
Theorem common_overload_needs_key (dm : data_model) (targs : template_args)
    (A B : ctype) :
  (forall A' B' C,
     resolve dm targs A B = Some (OvCommon A' B' C) ->
     targs = Explicit CommonTag)
  /\
  (A <> B ->
   resolve dm Deduced A B = None /\ compiles dm Deduced A B = None)
  /\
  (A <> B -> common_enabled CommonTag A B = true ->
   compiles dm Deduced A B = None
   /\ compiles dm (Explicit CommonTag) A B <> None).
Proof.
  assert (Hded : A <> B ->
            resolve dm Deduced A B = None /\ compiles dm Deduced A B = None).
  { intros Hne.
    assert (Hres : resolve dm Deduced A B = None).
    { unfold resolve, candidates, single_type_candidate, common_candidate.
      rewrite (is_same_false A B Hne). reflexivity. }
    split; [exact Hres|]. unfold compiles. rewrite Hres. reflexivity. }
  split; [|split].
  - intros A' B' C H. apply resolve_in_candidates in H.
    unfold candidates in H.
    repeat (apply in_app_or in H; destruct H as [H | H]);
      try (apply single_type_candidate_not_common in H;
           destruct H as [T HT]; discriminate HT).
    apply (common_candidate_key dm targs A B _ H).
  - exact Hded.
  - intros Hne Hen. split; [apply (Hded Hne)|].
    destruct (compiles_common dm A B Hen) as (C & _ & -> & _). discriminate.
Qed.

(** ** With a NaN among the bounds

    The uniform-real body hands a NaN to the distribution whatever the
    order of the bounds, and no distribution is defined on it. *)
Lemma get_uniform_real_nan (Engine World : Type) (dm : data_model)
    (uniform_real_distribution :
       ctype -> spec_float -> spec_float -> Engine -> spec_float * Engine)
    (A : ctype) (from to : spec_float) (s : state Engine World) :
  is_nan from || is_nan to = true ->
  get_uniform_real dm uniform_real_distribution A from to s = Undefined.
Proof.
  intros H. unfold get_uniform_real, sample_real, real_precondition.
  destruct (real_format dm A) as [prec emax]. unfold SFleb at 1 3.
  assert (H' : is_nan to || is_nan from = true) by (rewrite orb_comm; exact H).
  rewrite (proj2 (SFcompare_None from to) H), (proj2 (SFcompare_None to from) H').
  destruct (SFltb from to); reflexivity.
Qed.

(** ** The properties on the reference instance *)

(** A bound given by a numeral lies in the range of its type. *)
Ltac solve_in_range := vm_compute; split; discriminate.

(** C2 on [get(1, 6)] with two [int]. *)
Lemma get_integral_in_range_witness :
  is_uniform_int Int = true /\ in_range LP64 Int 1 /\ in_range LP64 Int 6 /\
  exists v s',
    call LP64 reference_uniform_int reference_uniform_real
      Deduced Int Int (Vint 1) (Vint 6) (reference_state 1)
    = Some (Returns (Vint v) s')
    /\ Z.min 1 6 <= v <= Z.max 1 6.
Proof.
  assert (H1 : in_range LP64 Int 1) by solve_in_range.
  assert (H6 : in_range LP64 Int 6) by solve_in_range.
  split; [reflexivity|]. split; [exact H1|]. split; [exact H6|].
  exact (get_integral_in_range Z unit LP64
           reference_uniform_int reference_uniform_real
           (reference_uniform_int_contract LP64)
           Int 1 6 (reference_state 1) eq_refl H1 H6).
Defined.

(** C3 on [get(6, 1)] and [get(1, 6)], and on the two zeros. *)
Lemma get_swap_invariant_witness :
  uniform_real_numeric reference_uniform_real /\
  call LP64 reference_uniform_int reference_uniform_real
    Deduced Int Int (Vint 6) (Vint 1) (reference_state 1)
  = call LP64 reference_uniform_int reference_uniform_real
      Deduced Int Int (Vint 1) (Vint 6) (reference_state 1) /\
  call LP64 reference_uniform_int reference_uniform_real
    Deduced Double Double (Vreal (S754_zero false)) (Vreal (S754_zero true))
    (reference_state 1)
  = call LP64 reference_uniform_int reference_uniform_real
      Deduced Double Double (Vreal (S754_zero true)) (Vreal (S754_zero false))
      (reference_state 1).
Proof.
  split; [exact reference_uniform_real_numeric|]. split.
  - exact (get_swap_invariant Z unit LP64
             reference_uniform_int reference_uniform_real
             reference_uniform_real_numeric
             Int (Vint 6) (Vint 1) (reference_state 1)).
  - exact (get_swap_invariant Z unit LP64
             reference_uniform_int reference_uniform_real
             reference_uniform_real_numeric
             Double (Vreal (S754_zero false)) (Vreal (S754_zero true))
             (reference_state 1)).
Defined.

(** C4 (amended) on [get(5, 5)] with two [int] and on [get(1.0, 1.0)]
    with two [double]. *)
Lemma get_equal_bounds_witness :
  (exists s',
     call LP64 reference_uniform_int reference_uniform_real
       Deduced Int Int (Vint 5) (Vint 5) (reference_state 1)
     = Some (Returns (Vint 5) s'))
  /\
  (exists v s',
     call LP64 reference_uniform_int reference_uniform_real
       Deduced Double Double
       (Vreal (real_of_int LP64 Double 1)) (Vreal (real_of_int LP64 Double 1))
       (reference_state 1)
     = Some (Returns (Vreal v) s')
     /\ SFeqb v (real_of_int LP64 Double 1) = true).
Proof.
  assert (H5 : in_range LP64 Int 5) by solve_in_range.
  split.
  - exact (proj1 (get_equal_bounds Z unit LP64
                    reference_uniform_int reference_uniform_real
                    (reference_uniform_int_contract LP64)
                    (reference_uniform_real_contract LP64)
                    Int (reference_state 1)) 5 eq_refl H5).
  - exact (proj2 (get_equal_bounds Z unit LP64
                    reference_uniform_int reference_uniform_real
                    (reference_uniform_int_contract LP64)
                    (reference_uniform_real_contract LP64)
                    Double (reference_state 1))
                 (real_of_int LP64 Double 1) eq_refl eq_refl).
Defined.

(** C5 on [get(-5, 5)] with two [signed char]. *)
Lemma get_byte_widens_and_narrows_witness :
  is_byte SChar = true /\
  in_range LP64 SChar (-5) /\ in_range LP64 SChar 5 /\
  exists v s',
    call LP64 reference_uniform_int reference_uniform_real
      Deduced SChar SChar (Vint (-5)) (Vint 5) (reference_state 42)
    = Some (Returns (Vint v) s')
    /\ in_range LP64 SChar v
    /\ Z.min (-5) 5 <= v <= Z.max (-5) 5.
Proof.
  assert (Hlo : in_range LP64 SChar (-5)) by solve_in_range.
  assert (Hhi : in_range LP64 SChar 5) by solve_in_range.
  split; [reflexivity|]. split; [exact Hlo|]. split; [exact Hhi|].
  destruct (get_byte_widens_and_narrows Z unit LP64
              reference_uniform_int reference_uniform_real
              (reference_uniform_int_contract LP64)
              SChar (-5) 5 (reference_state 42) eq_refl Hlo Hhi)
    as (_ & _ & _ & _ & v & s' & _ & _ & Hcall & Hin & Hv).
  exists v, s'. split; [exact Hcall|]. split; [exact Hin|exact Hv].
Defined.

(** [get(0.0, 1.0)] with two [double] is within the precondition. *)
Lemma get_real_in_range_witness :
  real_precondition LP64 Double
    (SFmin (S754_zero false) (real_of_int LP64 Double 1))
    (SFmax (S754_zero false) (real_of_int LP64 Double 1)) = true /\
  exists v s',
    call LP64 reference_uniform_int reference_uniform_real
      Deduced Double Double
      (Vreal (S754_zero false)) (Vreal (real_of_int LP64 Double 1))
      (reference_state 1)
    = Some (Returns (Vreal v) s')
    /\ SFleb (SFmin (S754_zero false) (real_of_int LP64 Double 1)) v = true
    /\ SFleb v (SFmax (S754_zero false) (real_of_int LP64 Double 1)) = true.
Proof.
  split; [reflexivity|].
  exact (get_real_in_range Z unit LP64
           reference_uniform_int reference_uniform_real
           (reference_uniform_real_contract LP64)
           Double (S754_zero false) (real_of_int LP64 Double 1)
           (reference_state 1) eq_refl eq_refl eq_refl eq_refl).
Defined.

(** C1 (amended) on [get<common>(-10, 10L)] with an [int] and a [long]. *)
Lemma common_overload_same_signedness_witness :
  is_supported_number Int = true /\ is_supported_number Long = true /\
  is_signed Int = is_signed Long /\
  compiles LP64 (Explicit CommonTag) Int Long = Some (OvCommon Int Long Long) /\
  (exists v s',
     call LP64 reference_uniform_int reference_uniform_real
       (Explicit CommonTag) Int Long (Vint (-10)) (Vint 10) (reference_state 42)
     = Some (Returns (Vint v) s')
     /\ Z.min (-10) 10 <= v <= Z.max (-10) 10) /\
  (exists v s',
     call LP64 reference_uniform_int reference_uniform_real
       (Explicit CommonTag) Int Float
       (Vint (-10)) (Vreal (real_of_int LP64 Float 10)) (reference_state 42)
     = Some (Returns (Vreal v) s')
     /\ SFleb (real_of_int LP64 Float (-10)) v = true
     /\ SFleb v (real_of_int LP64 Float 10) = true).
Proof.
  assert (Hlo : in_range LP64 Int (-10)) by solve_in_range.
  assert (Hhi : in_range LP64 Long 10) by solve_in_range.
  split; [reflexivity|]. split; [reflexivity|]. split; [reflexivity|].
  split; [reflexivity|]. split.
  - destruct (proj2 (common_overload_same_signedness Z unit LP64
                       reference_uniform_int reference_uniform_real
                       (reference_uniform_int_contract LP64)
                       (reference_uniform_real_contract LP64)
                       Int Long eq_refl eq_refl) eq_refl)
      as (C & HC & _ & _ & _ & Hget & _).
    injection HC as <-.
    exact (proj2 (proj2 (Hget eq_refl (-10) 10 (reference_state 42) Hlo Hhi))).
  - destruct (proj2 (common_overload_same_signedness Z unit LP64
                       reference_uniform_int reference_uniform_real
                       (reference_uniform_int_contract LP64)
                       (reference_uniform_real_contract LP64)
                       Int Float eq_refl eq_refl) eq_refl)
      as (C & HC & _ & _ & _ & _ & Hget).
    injection HC as <-.
    exact (Hget eq_refl (Vint (-10)) (Vreal (real_of_int LP64 Float 10))
             (real_of_int LP64 Float (-10)) (real_of_int LP64 Float 10)
             (reference_state 42) eq_refl eq_refl eq_refl eq_refl eq_refl).
Defined.

(** C7 on [get<common>(from, to)] with an [int] and a [long]. *)
Lemma get_return_type_witness :
  compiles LP64 (Explicit CommonTag) Int Long = Some (OvCommon Int Long Long) /\
  common_type LP64 Int Long = Some (return_type (OvCommon Int Long Long)) /\
  (Int = Long -> return_type (OvCommon Int Long Long) = Int).
Proof.
  split; [reflexivity|].
  exact (get_return_type LP64 (Explicit CommonTag) Int Long
           (OvCommon Int Long Long) (or_intror eq_refl) eq_refl).
Defined.

(** C8 (amended): [get(true, 1)] is rejected, [get(1, 6)] and
    [get(0.0, 1.0)] return. *)
Lemma get_always_returns_witness :
  compiles LP64 Deduced Bool Int = None
  /\
  (exists v s',
     call LP64 reference_uniform_int reference_uniform_real
       Deduced Int Int (Vint 1) (Vint 6) (reference_state 1)
     = Some (Returns (Vint v) s'))
  /\
  (exists v s',
     call LP64 reference_uniform_int reference_uniform_real
       Deduced Double Double
       (Vreal (S754_zero false)) (Vreal (real_of_int LP64 Double 1))
       (reference_state 1)
     = Some (Returns (Vreal v) s')).
Proof.
  assert (H1 : in_range LP64 Int 1) by solve_in_range.
  assert (H6 : in_range LP64 Int 6) by solve_in_range.
  split; [|split].
  - exact (proj1 (get_always_returns Z unit LP64
                    reference_uniform_int reference_uniform_real
                    (reference_uniform_int_contract LP64)
                    (reference_uniform_real_contract LP64)
                    Deduced Bool Int (or_introl eq_refl)) eq_refl).
  - exact (proj1 (proj2 (get_always_returns Z unit LP64
                    reference_uniform_int reference_uniform_real
                    (reference_uniform_int_contract LP64)
                    (reference_uniform_real_contract LP64)
                    Deduced Int Int (or_introl eq_refl)))
                 (OvUniformInt Int) 1 6 (reference_state 1)
                 eq_refl eq_refl H1 H6).
  - exact (proj2 (proj2 (get_always_returns Z unit LP64
                    reference_uniform_int reference_uniform_real
                    (reference_uniform_int_contract LP64)
                    (reference_uniform_real_contract LP64)
                    Deduced Double Double (or_introl eq_refl)))
                 (OvUniformReal Double)
                 (Vreal (S754_zero false)) (Vreal (real_of_int LP64 Double 1))
                 (S754_zero false) (real_of_int LP64 Double 1)
                 (reference_state 1)
                 eq_refl eq_refl eq_refl eq_refl eq_refl eq_refl eq_refl).
Defined.

(** C10 on an [int] and a [long]: [get(from, to)] is rejected,
    [get<common>(from, to)] selects the common-type overload. *)
Lemma common_overload_needs_key_witness :
  Int <> Long /\ common_enabled CommonTag Int Long = true /\
  resolve LP64 (Explicit CommonTag) Int Long = Some (OvCommon Int Long Long) /\
  Explicit CommonTag = Explicit CommonTag /\
  compiles LP64 Deduced Int Long = None /\
  compiles LP64 (Explicit CommonTag) Int Long <> None.
Proof.
  assert (Hne : Int <> Long) by discriminate.
  split; [exact Hne|]. split; [reflexivity|]. split; [reflexivity|].
  split.
  - exact (proj1 (common_overload_needs_key LP64 (Explicit CommonTag) Int Long)
                 Int Long Long eq_refl).
  - exact (proj2 (proj2 (common_overload_needs_key LP64 Deduced Int Long))
                 Hne eq_refl).
Defined.

(** ** Where the specification departs from the header *)

(** C1 as stated fails: with one signed and one unsigned type the
    [enable_if] condition is false and [get<common>(-10, 10u)] does not
    compile, while with two types of one signedness it does. *)
Lemma common_overload_rejects_mixed_signedness :
  common_enabled CommonTag Int UInt = false
  /\ compiles LP64 (Explicit CommonTag) Int UInt = None
  /\ call LP64 reference_uniform_int reference_uniform_real
       (Explicit CommonTag) Int UInt (Vint (-10)) (Vint 10) (reference_state 1)
     = None
  /\ compiles LP64 (Explicit CommonTag) Int Long
     = Some (OvCommon Int Long Long).
Proof. repeat split; reflexivity. Qed.

(** C4 as stated fails: with both bounds [+infinity], a [double], the
    distance of the bounds is NaN, outside the precondition of the
    distribution; the call does not return [+infinity]. *)
Lemma get_equal_bounds_infinity :
  call LP64 reference_uniform_int reference_uniform_real
    Deduced Double Double
    (Vreal (S754_infinity false)) (Vreal (S754_infinity false))
    (reference_state 1)
  = Some Undefined
  /\ ~ (exists s',
          call LP64 reference_uniform_int reference_uniform_real
            Deduced Double Double
            (Vreal (S754_infinity false)) (Vreal (S754_infinity false))
            (reference_state 1)
          = Some (Returns (Vreal (S754_infinity false)) s')).
Proof.
  split; [reflexivity|]. intros [s' H]. vm_compute in H. discriminate H.
Qed.

(** With both bounds NaN, a [double], the call is undefined, and no
    value is at or above the smaller bound. *)
Lemma get_real_nan_bounds :
  call LP64 reference_uniform_int reference_uniform_real
    Deduced Double Double (Vreal S754_nan) (Vreal S754_nan) (reference_state 1)
  = Some Undefined
  /\ ~ (exists v s',
          call LP64 reference_uniform_int reference_uniform_real
            Deduced Double Double (Vreal S754_nan) (Vreal S754_nan)
            (reference_state 1)
          = Some (Returns (Vreal v) s')
          /\ SFleb (SFmin S754_nan S754_nan) v = true
          /\ SFleb v (SFmax S754_nan S754_nan) = true)
  /\ ~ (exists v, SFleb (SFmin S754_nan S754_nan) v = true).
Proof.
  split; [reflexivity|]. split.
  - intros (v & s' & H & _). vm_compute in H. discriminate H.
  - intros [v H]. destruct v; discriminate H.
Qed.

(** C8 as stated fails: [get(NaN, 1.0f)] compiles and constructs the
    distribution outside its precondition. *)
Lemma get_nan_bound_undefined :
  compiles LP64 Deduced Float Float = Some (OvUniformReal Float)
  /\ call LP64 reference_uniform_int reference_uniform_real
       Deduced Float Float
       (Vreal S754_nan) (Vreal (real_of_int LP64 Float 1)) (reference_state 1)
     = Some Undefined
  /\ ~ (exists v s',
          call LP64 reference_uniform_int reference_uniform_real
            Deduced Float Float
            (Vreal S754_nan) (Vreal (real_of_int LP64 Float 1))
            (reference_state 1)
          = Some (Returns v s')).
Proof.
  split; [reflexivity|]. split; [reflexivity|].
  intros (v & s' & H). vm_compute in H. discriminate H.
Qed.

(** * Further properties of the header *)

(** ** Checking all calls *)

Lemma all_ctypes_complete (T : ctype) : In T all_ctypes.
Proof. destruct T; simpl; auto 20. Qed.

Lemma all_data_models_complete (dm : data_model) : In dm all_data_models.
Proof. destruct dm; simpl; auto. Qed.

Lemma all_template_args_complete (targs : template_args) :
  In targs all_template_args.
Proof.
  destruct targs as [|K]; [left; reflexivity|].
  right. apply in_map. apply all_ctypes_complete.
Qed.

Lemma for_all_calls_spec
    (P : data_model -> template_args -> ctype -> ctype -> bool) :
  for_all_calls P = true -> forall dm targs A B, P dm targs A B = true.
Proof.
  unfold for_all_calls. intros H dm targs A B.
  rewrite forallb_forall in H.
  specialize (H dm (all_data_models_complete dm)).
  rewrite forallb_forall in H.
  specialize (H targs (all_template_args_complete targs)).
  rewrite forallb_forall in H.
  specialize (H A (all_ctypes_complete A)).
  rewrite forallb_forall in H.
  exact (H B (all_ctypes_complete B)).
Qed.

Lemma same_selection_eq (x y : option overload) :
  same_selection x y = true -> x = y.
Proof.
  destruct x as [a|], y as [b|]; simpl; intros H; try discriminate H;
    try reflexivity.
  destruct (overload_eq_dec a b); [congruence|discriminate H].
Qed.

(** ** Overload selection *)

(** X1. No call of [get] is ambiguous: whatever the template argument
    and the argument types, at most one of the four templates is
    viable. *)
Theorem call_never_ambiguous (dm : data_model) (targs : template_args)
    (A B : ctype) :
  (length (candidates dm targs A B) <= 1)%nat.
Proof.
  apply Nat.leb_le.
  apply (for_all_calls_spec
           (fun dm targs A B => (length (candidates dm targs A B) <=? 1)%nat)).
  vm_compute. reflexivity.
Qed.

(** X2. Whenever a call [get(from, to)] or [get<K>(from, to)], which
    leaves the result type [C] of the common-type overload to its
    default, resolves to an overload, the body of that overload
    instantiates: the unqualified calls the byte body and the common-type
    body make find an overload of their own.  (With [C] given this is no
    longer so: [result_type_argument_unchecked].) *)
Theorem resolved_body_instantiates (dm : data_model) (targs : template_args)
    (A B : ctype) (ov : overload) :
  resolve dm targs A B = Some ov ->
  instantiates dm ov = true /\ compiles dm targs A B = Some ov.
Proof.
  intros H.
  assert (E : compiles dm targs A B = resolve dm targs A B).
  { apply same_selection_eq.
    apply (for_all_calls_spec
             (fun dm targs A B =>
                same_selection (compiles dm targs A B) (resolve dm targs A B))).
    vm_compute. reflexivity. }
  split; [|congruence].
  unfold compiles in E. rewrite H in E.
  destruct (instantiates dm ov); [reflexivity|discriminate E].
Qed.

(** X3. Which overload a call selects, and with it the result type, is
    the same in the three data models. *)
Theorem selection_independent_of_data_model (dm dm' : data_model)
    (targs : template_args) (A B : ctype) :
  compiles dm targs A B = compiles dm' targs A B.
Proof.
  apply same_selection_eq.
  assert (H : forallb (fun dm' => same_selection (compiles dm targs A B)
                                                 (compiles dm' targs A B))
                      all_data_models = true).
  { apply (for_all_calls_spec
             (fun dm targs A B =>
                forallb (fun dm' => same_selection (compiles dm targs A B)
                                                   (compiles dm' targs A B))
                        all_data_models)).
    vm_compute. reflexivity. }
  rewrite forallb_forall in H.
  exact (H dm' (all_data_models_complete dm')).
Qed.

Lemma common_enabled_sym (Key A B : ctype) :
  common_enabled Key A B = common_enabled Key B A.
Proof.
  unfold common_enabled. destruct (is_same Key CommonTag); [|reflexivity].
  destruct A, B; reflexivity.
Qed.

Lemma compiles_common_sym (dm : data_model) (A B C : ctype) :
  compiles dm (Explicit CommonTag) A B = Some (OvCommon A B C) ->
  compiles dm (Explicit CommonTag) B A = Some (OvCommon B A C).
Proof.
  intros H.
  pose proof (for_all_calls_spec
    (fun dm _ A B =>
       match compiles dm (Explicit CommonTag) A B with
       | Some (OvCommon _ _ C) =>
           same_selection (compiles dm (Explicit CommonTag) B A)
                          (Some (OvCommon B A C))
       | _ => true
       end) eq_refl dm Deduced A B) as E.
  cbv beta in E. rewrite H in E. apply same_selection_eq. exact E.
Qed.

Lemma compiles_common_none_sym (dm : data_model) (A B : ctype) :
  compiles dm (Explicit CommonTag) A B = None ->
  compiles dm (Explicit CommonTag) B A = None.
Proof.
  intros H.
  destruct (compiles dm (Explicit CommonTag) B A) as [ov|] eqn:E;
    [|reflexivity].
  destruct (compiles_common_inv dm B A ov E) as [_ (C & _ & ->)].
  apply compiles_common_sym in E. congruence.
Qed.

(** X4. The [enable_if] condition of the common-type overload, written
    as [is_signed<A> != is_unsigned<B>], does not depend on the order of
    the two argument types, and neither does the result type: if
    [get<common>] compiles on [(A, B)] with result type [C], it compiles
    on [(B, A)] with result type [C]. *)
Theorem common_condition_symmetric (dm : data_model) (Key A B : ctype) :
  common_enabled Key A B = common_enabled Key B A
  /\ (forall C,
        compiles dm (Explicit CommonTag) A B = Some (OvCommon A B C) ->
        compiles dm (Explicit CommonTag) B A = Some (OvCommon B A C)).
Proof.
  split; [apply common_enabled_sym|].
  intros C. apply compiles_common_sym.
Qed.

(** X5. On two different argument types, [get<common>(from, to)], which
    leaves the result type [C] to its default [common_type<A, B>], does
    not sample at a byte type or a 16-bit type: the call its body makes
    selects the uniform-int overload at a type of the rank of [int] or
    above, or the uniform-real overload.  (With [C] given the call
    samples at [C]: [explicit_result_type_converts_bounds].) *)
Theorem common_overload_promotes (dm : data_model) (A B C : ctype) :
  A <> B ->
  compiles dm (Explicit CommonTag) A B = Some (OvCommon A B C) ->
  (compiles dm Deduced C C = Some (OvUniformInt C) /\ rank Int <= rank C)
  \/ compiles dm Deduced C C = Some (OvUniformReal C).
Proof.
  intros Hne H.
  pose proof (for_all_calls_spec
    (fun dm _ A B =>
       if is_same A B then true else
       match compiles dm (Explicit CommonTag) A B with
       | Some (OvCommon _ _ C) =>
              (same_selection (compiles dm Deduced C C) (Some (OvUniformInt C))
               && (rank Int <=? rank C))
           || same_selection (compiles dm Deduced C C) (Some (OvUniformReal C))
       | _ => true
       end) eq_refl dm Deduced A B) as E.
  cbv beta in E. rewrite (is_same_false A B Hne), H in E.
  apply orb_true_iff in E. destruct E as [E | E].
  - apply andb_true_iff in E. destruct E as [E1 E2]. left. split.
    + apply same_selection_eq. exact E1.
    + apply Z.leb_le. exact E2.
  - right. apply same_selection_eq. exact E.
Qed.

Lemma compiles_explicit_inv (dm : data_model) (K A B : ctype) (ov : overload) :
  K <> CommonTag ->
  compiles dm (Explicit K) A B = Some ov ->
  compiles dm Deduced K K = Some ov /\ return_type ov = K.
Proof.
  intros HK H.
  pose proof (for_all_calls_spec
    (fun dm targs A B =>
       match targs with
       | Explicit K =>
           if is_same K CommonTag then true else
           match compiles dm (Explicit K) A B with
           | Some ov => same_selection (compiles dm Deduced K K) (Some ov)
                        && is_same (return_type ov) K
           | None => true
           end
       | Deduced => true
       end) eq_refl dm (Explicit K) A B) as E.
  cbv beta iota in E. rewrite (is_same_false K CommonTag HK), H in E.
  apply andb_true_iff in E. destruct E as [E1 E2]. split.
  - apply same_selection_eq. exact E1.
  - apply is_same_true. exact E2.
Qed.

Lemma compiles_explicit (dm : data_model) (K A B : ctype) :
  is_supported_number K = true ->
  is_arithmetic A = true -> is_arithmetic B = true ->
  exists ov, compiles dm (Explicit K) A B = Some ov
          /\ compiles dm Deduced K K = Some ov.
Proof.
  intros HK HA HB.
  pose proof (for_all_calls_spec
    (fun dm targs A B =>
       match targs with
       | Explicit K =>
           if is_supported_number K && is_arithmetic A && is_arithmetic B then
             match compiles dm (Explicit K) A B with
             | Some ov => same_selection (compiles dm Deduced K K) (Some ov)
             | None => false
             end
           else true
       | Deduced => true
       end) eq_refl dm (Explicit K) A B) as E.
  cbv beta iota in E. rewrite HK, HA, HB in E. simpl in E.
  destruct (compiles dm (Explicit K) A B) as [ov|]; [|discriminate E].
  exists ov. split; [reflexivity|]. apply same_selection_eq. exact E.
Qed.

(** X6. The result type of every call that compiles is a supported
    number type; and a call [get<K>(from, to)] that gives a number type
    [K] explicitly selects the single-type overload at [K] and returns
    [K], whatever arithmetic types the two arguments have. *)
Theorem result_type_supported (dm : data_model) (targs : template_args)
    (A B : ctype) (ov : overload) :
  compiles dm targs A B = Some ov ->
  is_supported_number (return_type ov) = true
  /\ (forall K, targs = Explicit K -> K <> CommonTag ->
        return_type ov = K /\ compiles dm Deduced K K = Some ov).
Proof.
  intros H. split.
  - pose proof (for_all_calls_spec
      (fun dm targs A B =>
         match compiles dm targs A B with
         | Some ov => is_supported_number (return_type ov)
         | None => true
         end) eq_refl dm targs A B) as E.
    cbv beta in E. rewrite H in E. exact E.
  - intros K -> HK.
    destruct (compiles_explicit_inv dm K A B ov HK H) as [Hd Hr].
    split; assumption.
Qed.

(** ** Calls *)

(** Every integer, converted to an integral type the header accepts, is
    a value of that type. *)
Lemma wrap_range (dm : data_model) (K : ctype) (z : Z) :
  is_uniform_int K || is_byte K = true -> in_range dm K (wrap dm K z).
Proof.
  unfold in_range, wrap, min_value, max_value.
  destruct dm, K; simpl; intros HK; try discriminate HK;
    match goal with
    | |- context [ ?x mod ?m ] =>
        pose proof (Z.mod_pos_bound x m ltac:(lia)); lia
    end.
Qed.

Lemma static_cast_wrap (dm : data_model) (A K : ctype) (z : Z) :
  is_uniform_int K || is_byte K = true -> in_range dm A z ->
  static_cast dm A K (Vint z) = Some (Vint (wrap dm K z)).
Proof.
  intros HK Hz. unfold static_cast.
  destruct (is_same A K) eqn:E.
  - apply is_same_true in E. subst A.
    rewrite wrap_in_range; [reflexivity| |exact Hz].
    destruct K; try discriminate HK; reflexivity.
  - destruct K; try discriminate HK; reflexivity.
Qed.

Lemma common_enabled_same (A : ctype) :
  common_enabled CommonTag A A = is_supported_number A.
Proof. destruct A; reflexivity. Qed.

Lemma compiles_unsupported (dm : data_model) (A : ctype) :
  is_supported_number A = false ->
  compiles dm Deduced A A = None
  /\ compiles dm (Explicit CommonTag) A A = None.
Proof. destruct A; intros H; try discriminate H; split; reflexivity. Qed.

Section Calls.

#[local] Set Warnings "-notation-for-abbreviation".

Variables Engine World : Type.
Variable dm : data_model.
Variable uniform_int_distribution : ctype -> Z -> Z -> Engine -> Z * Engine.
Variable uniform_real_distribution :
  ctype -> spec_float -> spec_float -> Engine -> spec_float * Engine.

Hypothesis int_contract : uniform_int_contract dm uniform_int_distribution.
Hypothesis real_numeric : uniform_real_numeric uniform_real_distribution.

Local Notation state := (state Engine World).
Local Notation sample_int := (sample_int uniform_int_distribution).
Local Notation sample_real := (sample_real dm uniform_real_distribution).
Local Notation get_uniform_int := (get_uniform_int uniform_int_distribution).
Local Notation get_uniform_real :=
  (get_uniform_real dm uniform_real_distribution).
Local Notation get_byte := (get_byte dm uniform_int_distribution).
Local Notation get_single :=
  (get_single dm uniform_int_distribution uniform_real_distribution).
Local Notation get_same :=
  (get_same dm uniform_int_distribution uniform_real_distribution).
Local Notation call :=
  (call dm uniform_int_distribution uniform_real_distribution).

(** A call that names a number type runs the single-type call at that
    type on the converted arguments. *)
Lemma call_explicit (K A B : ctype) (from to x y : value) (s : state) :
  K <> CommonTag ->
  compiles dm (Explicit K) A B <> None ->
  static_cast dm A K from = Some x ->
  static_cast dm B K to = Some y ->
  call (Explicit K) A B from to s = call Deduced K K x y s.
Proof.
  intros HK Hc Hx Hy.
  destruct (compiles dm (Explicit K) A B) as [ov|] eqn:E; [|congruence].
  destruct (compiles_explicit_inv dm K A B ov HK E) as [Hd Hr].
  rewrite (call_deduced Engine World dm _ _ K ov x y s Hd).
  unfold call, get. rewrite E.
  destruct (compiles_deduced dm K K ov Hd) as [_ [[-> _]|[[-> _]|[-> _]]]];
    unfold invoke; simpl return_type; rewrite Hx, Hy; reflexivity.
Qed.

(** X7. The common-type overload is swap-invariant as well: for all
    argument types and all bounds, [get<common>(from, to)] and
    [get<common>(to, from)] started from one state either are both
    rejected, or are both undefined, or return the same value and leave
    the same state. *)
Theorem common_call_swap_invariant (A B : ctype) (from to : value) (s : state) :
  call (Explicit CommonTag) A B from to s
  = call (Explicit CommonTag) B A to from s.
Proof.
  destruct (compiles dm (Explicit CommonTag) A B) as [ov|] eqn:E.
  - destruct (compiles_common_inv dm A B ov E) as [_ (C & _ & ->)].
    pose proof (compiles_common_sym dm A B C E) as E'.
    unfold call, get. rewrite E, E'.
    unfold invoke, get_common, bind.
    destruct (static_cast dm A C from) as [x|], (static_cast dm B C to) as [y|];
      simpl; try reflexivity.
    unfold get_same.
    destruct (resolve dm Deduced C C) as [ov|]; [|reflexivity].
    rewrite (get_single_swap Engine World dm _ _ real_numeric ov x y s).
    reflexivity.
  - pose proof (compiles_common_none_sym dm A B E) as E'.
    unfold call, get. rewrite E, E'. reflexivity.
Qed.

(** X8. On two arguments of one type, [get<common>(from, to)] is
    [get(from, to)]: both are rejected, or both are undefined, or both
    return the same value and leave the same state. *)
Theorem common_call_on_one_type (A : ctype) (x y : value) (s : state) :
  call (Explicit CommonTag) A A x y s = call Deduced A A x y s.
Proof.
  destruct (is_supported_number A) eqn:HA.
  - assert (Hen : common_enabled CommonTag A A = true)
      by (rewrite common_enabled_same; exact HA).
    destruct (compiles_common dm A A Hen) as (C & HC & Hcomp & _).
    rewrite common_type_same in HC. injection HC as <-.
    apply (call_common Engine World dm _ _ A A A x y x y s Hcomp);
      apply static_cast_same.
  - destruct (compiles_unsupported dm A HA) as [Hd Hc].
    unfold call, get. rewrite Hd, Hc. reflexivity.
Qed.

(** X9. Whatever the two integers and their order, the uniform-int body
    constructs its distribution on the smaller and the larger one, so
    within the precondition, and returns what that one draw gives; the
    byte body does so on the two bounds converted to [short_t] and
    converts the draw back. *)
Theorem integral_bodies_always_draw (A : ctype) (from to : Z) (s : state) :
  int_precondition (Z.min from to) (Z.max from to) = true
  /\ get_uniform_int A from to s
     = Returns
         (fst (uniform_int_distribution A (Z.min from to) (Z.max from to)
                 (engine s)))
         (set_engine s
            (snd (uniform_int_distribution A (Z.min from to) (Z.max from to)
                    (engine s))))
  /\ get_byte A from to s
     = Returns
         (wrap dm A
            (fst (uniform_int_distribution (short_t A)
                    (Z.min (wrap dm (short_t A) from) (wrap dm (short_t A) to))
                    (Z.max (wrap dm (short_t A) from) (wrap dm (short_t A) to))
                    (engine s))))
         (set_engine s
            (snd (uniform_int_distribution (short_t A)
                    (Z.min (wrap dm (short_t A) from) (wrap dm (short_t A) to))
                    (Z.max (wrap dm (short_t A) from) (wrap dm (short_t A) to))
                    (engine s)))).
Proof.
  split; [unfold int_precondition; apply Z.leb_le; lia|]. split.
  - rewrite (get_uniform_int_draw Engine World).
    apply sample_int_returns. lia.
  - unfold get_byte, bind.
    rewrite (get_uniform_int_draw Engine World).
    rewrite (sample_int_returns Engine World) by lia. reflexivity.
Qed.

(** X10. The uniform-real body orders its bounds only as far as they
    are ordered: with a NaN among them it is undefined whatever their
    order and whatever the distribution; otherwise it constructs the
    distribution on the two bounds in an order [lo <= hi]. *)
Theorem real_body_orders_bounds (A : ctype) (from to : spec_float) (s : state) :
  (is_nan from || is_nan to = true ->
   get_uniform_real A from to s = Undefined)
  /\
  (is_nan from || is_nan to = false ->
   exists lo hi,
     ((lo = from /\ hi = to) \/ (lo = to /\ hi = from))
     /\ SFleb lo hi = true
     /\ get_uniform_real A from to s = sample_real A lo hi s).
Proof.
  split.
  - intros H. apply get_uniform_real_nan. exact H.
  - intros H. apply orb_false_iff in H. destruct H as [Hf Ht].
    unfold get_uniform_real.
    destruct (SFltb from to) eqn:Hlt.
    + exists from, to. split; [left; split; reflexivity|].
      split; [|reflexivity].
      unfold SFltb in Hlt. unfold SFleb.
      destruct (SFcompare from to) as [[ | | ]|]; congruence.
    + exists to, from. split; [right; split; reflexivity|].
      split; [|reflexivity].
      apply SFltb_false_SFleb; assumption.
Qed.

(** X11. An integral result is a value of the result type: for every
    call form, a call that compiles with an integral result type, on
    integral arguments within the ranges of their types, returns a value
    within the range of the result type. *)
Theorem integral_result_in_result_type
    (targs : template_args) (A B : ctype) (ov : overload)
    (from to : Z) (s : state) :
  compiles dm targs A B = Some ov ->
  is_integral (return_type ov) = true ->
  in_range dm A from -> in_range dm B to ->
  exists v s',
    call targs A B (Vint from) (Vint to) s = Some (Returns (Vint v) s')
    /\ in_range dm (return_type ov) v.
Proof.
  intros Hc Hint Hfrom Hto.
  assert (Hsup : is_supported_number (return_type ov) = true).
  { pose proof (for_all_calls_spec
      (fun dm targs A B =>
         match compiles dm targs A B with
         | Some ov => is_supported_number (return_type ov)
         | None => true
         end) eq_refl dm targs A B) as E.
    cbv beta in E. rewrite Hc in E. exact E. }
  pose proof (supported_integral _ Hsup Hint) as Hcat.
  assert (Hrange : forall x y : Z,
            in_range dm (return_type ov) x -> in_range dm (return_type ov) y ->
            exists v s',
              call Deduced (return_type ov) (return_type ov) (Vint x) (Vint y) s
              = Some (Returns (Vint v) s')
              /\ in_range dm (return_type ov) v).
  { intros x y Hx Hy.
    destruct (call_integral_range Engine World dm _ uniform_real_distribution
                int_contract (return_type ov) x y s Hcat Hx Hy)
      as (v & s' & Hcall & Hv).
    exists v, s'. split; [exact Hcall|]. unfold in_range in *. lia. }
  destruct targs as [|K].
  - destruct (compiles_deduced dm A B ov Hc) as [<- Hov].
    assert (Hr : return_type ov = A)
      by (destruct Hov as [[-> _]|[[-> _]|[-> _]]]; reflexivity).
    rewrite Hr in *. apply Hrange; assumption.
  - destruct (ctype_eq_dec K CommonTag) as [-> | HK].
    + destruct (compiles_common_inv dm A B ov Hc) as [Hen (C & HC & ->)].
      simpl in *.
      pose proof (proj1 (common_type_holds dm A B C from Hen HC Hint) Hfrom) as Hf.
      pose proof (proj2 (common_type_holds dm A B C to Hen HC Hint) Hto) as Ht.
      rewrite (call_common Engine World dm _ _ A B C
                 (Vint from) (Vint to) (Vint from) (Vint to) s Hc)
        by (apply static_cast_holds; assumption).
      apply Hrange; assumption.
    + destruct (compiles_explicit_inv dm K A B ov HK Hc) as [_ Hr].
      rewrite Hr in *.
      rewrite (call_explicit K A B (Vint from) (Vint to)
                 (Vint (wrap dm K from)) (Vint (wrap dm K to)) s HK)
        by (try congruence; apply static_cast_wrap; assumption).
      apply Hrange; apply wrap_range; exact Hcat.
Qed.

(** X12. A call [get<K>(from, to)] that names an integral or byte type
    [K] converts both integral arguments to [K] before anything else: it
    is the call [get] at [K] on the converted bounds, and what it returns
    lies between the converted bounds, which are the given ones only
    when [K] holds them. *)
Theorem explicit_type_converts_bounds
    (K A B : ctype) (from to : Z) (s : state) :
  is_uniform_int K || is_byte K = true ->
  is_integral A = true -> is_integral B = true ->
  in_range dm A from -> in_range dm B to ->
  call (Explicit K) A B (Vint from) (Vint to) s
  = call Deduced K K (Vint (wrap dm K from)) (Vint (wrap dm K to)) s
  /\ (exists v s',
        call (Explicit K) A B (Vint from) (Vint to) s
        = Some (Returns (Vint v) s')
        /\ Z.min (wrap dm K from) (wrap dm K to) <= v
           <= Z.max (wrap dm K from) (wrap dm K to))
  /\ (in_range dm K from -> wrap dm K from = from)
  /\ (in_range dm K to -> wrap dm K to = to).
Proof.
  intros HK HA HB Hfrom Hto.
  assert (HKc : K <> CommonTag) by (intros ->; discriminate HK).
  assert (HKs : is_supported_number K = true).
  { unfold is_supported_number. apply orb_true_iff in HK.
    destruct HK as [-> | ->]; rewrite ?orb_true_r; reflexivity. }
  assert (HKi : is_integral K = true)
    by (destruct K; try discriminate HK; reflexivity).
  assert (HAa : is_arithmetic A = true)
    by (destruct A; try discriminate HA; reflexivity).
  assert (HBa : is_arithmetic B = true)
    by (destruct B; try discriminate HB; reflexivity).
  destruct (compiles_explicit dm K A B HKs HAa HBa) as (ov & Hc & _).
  assert (Heq : call (Explicit K) A B (Vint from) (Vint to) s
                = call Deduced K K (Vint (wrap dm K from)) (Vint (wrap dm K to)) s).
  { apply call_explicit; try assumption; try congruence;
      apply static_cast_wrap; assumption. }
  split; [exact Heq|]. split.
  - rewrite Heq.
    apply (call_integral_range Engine World dm _ uniform_real_distribution
             int_contract K _ _ s HK); apply wrap_range; exact HK.
  - split; intros H; apply wrap_in_range; assumption.
Qed.

End Calls.

(** ** The further properties on the reference instance *)

(** X2 on [get<common>] with two [signed char]: the common-type body
    calls the byte overload, whose body calls the uniform-int overload. *)
Lemma resolved_body_instantiates_witness :
  resolve LP64 (Explicit CommonTag) SChar SChar
  = Some (OvCommon SChar SChar SChar)
  /\ instantiates LP64 (OvCommon SChar SChar SChar) = true
  /\ compiles LP64 (Explicit CommonTag) SChar SChar
     = Some (OvCommon SChar SChar SChar).
Proof.
  split; [reflexivity|].
  exact (resolved_body_instantiates LP64 (Explicit CommonTag) SChar SChar
           (OvCommon SChar SChar SChar) eq_refl).
Defined.

(** X4 on an [int] and a [long]. *)
Lemma common_condition_symmetric_witness :
  compiles LP64 (Explicit CommonTag) Int Long = Some (OvCommon Int Long Long)
  /\ compiles LP64 (Explicit CommonTag) Long Int = Some (OvCommon Long Int Long).
Proof.
  split; [reflexivity|].
  exact (proj2 (common_condition_symmetric LP64 CommonTag Int Long)
               Long eq_refl).
Defined.

(** X5 on a [signed char] and a [short]: the call samples at [int]. *)
Lemma common_overload_promotes_witness :
  SChar <> Short
  /\ compiles LP64 (Explicit CommonTag) SChar Short
     = Some (OvCommon SChar Short Int)
  /\ ((compiles LP64 Deduced Int Int = Some (OvUniformInt Int)
       /\ rank Int <= rank Int)
      \/ compiles LP64 Deduced Int Int = Some (OvUniformReal Int)).
Proof.
  assert (Hne : SChar <> Short) by discriminate.
  split; [exact Hne|]. split; [reflexivity|].
  exact (common_overload_promotes LP64 SChar Short Int Hne eq_refl).
Defined.

(** X6 on [get<short>] with an [int] and a [long]. *)
Lemma result_type_supported_witness :
  compiles LP64 (Explicit Short) Int Long = Some (OvUniformInt Short)
  /\ is_supported_number (return_type (OvUniformInt Short)) = true
  /\ return_type (OvUniformInt Short) = Short.
Proof.
  assert (HK : Short <> CommonTag) by discriminate.
  split; [reflexivity|].
  destruct (result_type_supported LP64 (Explicit Short) Int Long
              (OvUniformInt Short) eq_refl) as [Hsup Hret].
  split; [exact Hsup|]. exact (proj1 (Hret Short eq_refl HK)).
Defined.

(** X7 on [get<common>(-10, 10L)] and [get<common>(10L, -10)]. *)
Lemma common_call_swap_invariant_witness :
  uniform_real_numeric reference_uniform_real
  /\ call LP64 reference_uniform_int reference_uniform_real
       (Explicit CommonTag) Int Long (Vint (-10)) (Vint 10) (reference_state 42)
     = call LP64 reference_uniform_int reference_uniform_real
         (Explicit CommonTag) Long Int (Vint 10) (Vint (-10)) (reference_state 42).
Proof.
  split; [exact reference_uniform_real_numeric|].
  exact (common_call_swap_invariant Z unit LP64
           reference_uniform_int reference_uniform_real
           reference_uniform_real_numeric
           Int Long (Vint (-10)) (Vint 10) (reference_state 42)).
Defined.

(** X10 on [get(NaN, 1.0)] and on [get(1.0, 0.0)], two [double]. *)
Lemma real_body_orders_bounds_witness :
  get_uniform_real LP64 reference_uniform_real Double
    S754_nan (real_of_int LP64 Double 1) (reference_state 1)
  = Undefined
  /\ exists lo hi,
       ((lo = real_of_int LP64 Double 1 /\ hi = S754_zero false)
        \/ (lo = S754_zero false /\ hi = real_of_int LP64 Double 1))
       /\ SFleb lo hi = true
       /\ get_uniform_real LP64 reference_uniform_real Double
            (real_of_int LP64 Double 1) (S754_zero false) (reference_state 1)
          = sample_real LP64 reference_uniform_real Double lo hi
              (reference_state 1).
Proof.
  split.
  - exact (proj1 (real_body_orders_bounds Z unit LP64 reference_uniform_real
                    Double S754_nan (real_of_int LP64 Double 1)
                    (reference_state 1)) eq_refl).
  - exact (proj2 (real_body_orders_bounds Z unit LP64 reference_uniform_real
                    Double (real_of_int LP64 Double 1) (S754_zero false)
                    (reference_state 1)) eq_refl).
Defined.

(** X11 on [get<common>(200, 60000)] with an [unsigned char] and an
    [unsigned short]: the result type is [int]. *)
Lemma integral_result_in_result_type_witness :
  compiles LP64 (Explicit CommonTag) UChar UShort
  = Some (OvCommon UChar UShort Int)
  /\ exists v s',
       call LP64 reference_uniform_int reference_uniform_real
         (Explicit CommonTag) UChar UShort (Vint 200) (Vint 60000)
         (reference_state 42)
       = Some (Returns (Vint v) s')
       /\ in_range LP64 Int v.
Proof.
  assert (Hlo : in_range LP64 UChar 200) by solve_in_range.
  assert (Hhi : in_range LP64 UShort 60000) by solve_in_range.
  split; [reflexivity|].
  exact (integral_result_in_result_type Z unit LP64
           reference_uniform_int reference_uniform_real
           (reference_uniform_int_contract LP64)
           (Explicit CommonTag) UChar UShort (OvCommon UChar UShort Int)
           200 60000 (reference_state 42) eq_refl eq_refl Hlo Hhi).
Defined.

(** X12 on [get<short>(100000, 6)] with two [int]: the first bound
    becomes [-31072]. *)
Lemma explicit_type_converts_bounds_witness :
  wrap LP64 Short 100000 = -31072
  /\ exists v s',
       call LP64 reference_uniform_int reference_uniform_real
         (Explicit Short) Int Int (Vint 100000) (Vint 6) (reference_state 1)
       = Some (Returns (Vint v) s')
       /\ Z.min (wrap LP64 Short 100000) (wrap LP64 Short 6) <= v
          <= Z.max (wrap LP64 Short 100000) (wrap LP64 Short 6).
Proof.
  assert (Hlo : in_range LP64 Int 100000) by solve_in_range.
  assert (Hhi : in_range LP64 Int 6) by solve_in_range.
  split; [reflexivity|].
  exact (proj1 (proj2 (explicit_type_converts_bounds Z unit LP64
                         reference_uniform_int reference_uniform_real
                         (reference_uniform_int_contract LP64)
                         Short Int Int 100000 6 (reference_state 1)
                         eq_refl eq_refl eq_refl Hlo Hhi))).
Defined.

(** * The engine behind a call, and the documented range *)

Lemma sampling_type_uniform_int (A : ctype) :
  is_uniform_int A = true -> sampling_type A = A.
Proof. destruct A; intros H; try discriminate H; reflexivity. Qed.

Lemma sampling_type_byte (A : ctype) :
  is_byte A = true -> sampling_type A = short_t A.
Proof. unfold sampling_type. intros ->. reflexivity. Qed.

Section Engine.

#[local] Set Warnings "-notation-for-abbreviation".

Variables Engine World : Type.
Variable dm : data_model.
Variable uniform_int_distribution : ctype -> Z -> Z -> Engine -> Z * Engine.
Variable uniform_real_distribution :
  ctype -> spec_float -> spec_float -> Engine -> spec_float * Engine.

Hypothesis int_contract : uniform_int_contract dm uniform_int_distribution.

Local Notation state := (state Engine World).
Local Notation sample_int := (sample_int uniform_int_distribution).
Local Notation sample_real := (sample_real dm uniform_real_distribution).
Local Notation get_uniform_int := (get_uniform_int uniform_int_distribution).
Local Notation get_uniform_real :=
  (get_uniform_real dm uniform_real_distribution).
Local Notation get_byte := (get_byte dm uniform_int_distribution).
Local Notation call :=
  (call dm uniform_int_distribution uniform_real_distribution).

(** A call on two in-range bounds of one integral or byte type returns
    what one draw between the bounds gives, and leaves the state it found
    with the engine that draw leaves. *)
Lemma call_integral_draw (A : ctype) (from to : Z) (s : state) :
  is_uniform_int A || is_byte A = true ->
  in_range dm A from -> in_range dm A to ->
  call Deduced A A (Vint from) (Vint to) s
  = Some (Returns
            (Vint (fst (uniform_int_distribution (sampling_type A)
                          (Z.min from to) (Z.max from to) (engine s))))
            (set_engine s
               (snd (uniform_int_distribution (sampling_type A)
                       (Z.min from to) (Z.max from to) (engine s))))).
Proof.
  intros HA Hfrom Hto. apply orb_true_iff in HA. destruct HA as [HA | HA].
  - rewrite (call_uniform_int Engine World dm _ _ A from to s HA).
    rewrite (sampling_type_uniform_int A HA). unfold bind.
    rewrite (get_uniform_int_draw Engine World).
    rewrite (sample_int_returns Engine World) by lia. reflexivity.
  - rewrite (call_byte Engine World dm _ _ A from to s HA).
    rewrite (sampling_type_byte A HA). unfold bind, get_byte, bind.
    pose proof (byte_in_short_t dm A from HA Hfrom) as Hfrom'.
    pose proof (byte_in_short_t dm A to HA Hto) as Hto'.
    pose proof (short_t_uniform_int A) as HS.
    rewrite !wrap_in_range by (auto using uniform_int_is_integral).
    rewrite (get_uniform_int_draw Engine World).
    rewrite (sample_int_returns Engine World) by lia. unfold ret.
    rewrite wrap_in_range; [reflexivity|auto using byte_is_integral|].
    assert (Hd : Z.min from to
                 <= fst (uniform_int_distribution (short_t A)
                           (Z.min from to) (Z.max from to) (engine s))
                 <= Z.max from to).
    { apply int_contract; [exact HS| | |unfold int_precondition; lia];
        unfold in_range in *; lia. }
    unfold in_range in *. lia.
Qed.

(** A call on two bounds of one floating-point type is one application of
    the distribution, on the two bounds in one of their orders. *)
Lemma call_real_draw (A : ctype) (a b : spec_float) (s : state) :
  is_uniform_real A = true ->
  exists lo hi,
    ((lo = a /\ hi = b) \/ (lo = b /\ hi = a))
    /\ call Deduced A A (Vreal a) (Vreal b) s
       = Some (bind (sample_real A lo hi) (fun v => ret (Vreal v)) s).
Proof.
  intros HA. rewrite (call_uniform_real Engine World dm _ _ A a b s HA).
  unfold bind, get_uniform_real. destruct (SFltb a b).
  - exists a, b. split; [left; split; reflexivity|reflexivity].
  - exists b, a. split; [right; split; reflexivity|reflexivity].
Qed.

(** C9. One engine backs every call of [get], and a call touches nothing
    else.  A call [get(from, to)] or [get<common>(from, to)] that
    compiles, whatever overload it selects, is exactly one application of
    a standard distribution to the engine in the state:
    - with an integral result type and bounds of the argument types, the
      call returns, its value is the value of the draw
      [uniform_int_distribution{min, max}(engine)] at the type the
      overload samples at, the engine it leaves is the engine that draw
      leaves, and the rest of the state is as before;
    - with a floating-point result type, the call is the application of
      [uniform_real_distribution{lo, hi}] to the engine, [lo] and [hi]
      being the two converted bounds in one of their orders; within the
      precondition of the distribution it returns the value of that
      draw, leaves the engine that draw leaves, and keeps the rest of
      the state. *)
Theorem get_is_one_draw (targs : template_args) (A B : ctype)
    (ov : overload) (s : state) :
  targs = Deduced \/ targs = Explicit CommonTag ->
  compiles dm targs A B = Some ov ->
  (forall from to : Z,
     is_integral (return_type ov) = true ->
     in_range dm A from -> in_range dm B to ->
     exists s',
       call targs A B (Vint from) (Vint to) s
       = Some (Returns
                 (Vint (fst (uniform_int_distribution
                               (sampling_type (return_type ov))
                               (Z.min from to) (Z.max from to) (engine s))))
                 s')
       /\ engine s'
          = snd (uniform_int_distribution (sampling_type (return_type ov))
                   (Z.min from to) (Z.max from to) (engine s))
       /\ world s' = world s)
  /\
  (forall (from to : value) (a b : spec_float),
     is_floating_point (return_type ov) = true ->
     static_cast dm A (return_type ov) from = Some (Vreal a) ->
     static_cast dm B (return_type ov) to = Some (Vreal b) ->
     exists lo hi,
       ((lo = a /\ hi = b) \/ (lo = b /\ hi = a))
       /\ call targs A B from to s
          = Some (bind (sample_real (return_type ov) lo hi)
                       (fun v => ret (Vreal v)) s)
       /\ (real_precondition dm (return_type ov) lo hi = true ->
           exists s',
             call targs A B from to s
             = Some (Returns
                       (Vreal (fst (uniform_real_distribution (return_type ov)
                                      lo hi (engine s))))
                       s')
             /\ engine s'
                = snd (uniform_real_distribution (return_type ov)
                         lo hi (engine s))
             /\ world s' = world s)).
Proof.
  intros Htargs Hc.
  assert (Hsup : is_supported_number (return_type ov) = true).
  { destruct Htargs as [-> | ->].
    - destruct (compiles_deduced dm A B ov Hc) as [<- Hcat].
      unfold is_supported_number.
      destruct Hcat as [[-> H]|[[-> H]|[-> H]]]; simpl; rewrite H;
        rewrite ?orb_true_r; reflexivity.
    - destruct (compiles_common_inv dm A B ov Hc) as [Hen (C & HC & ->)].
      destruct (compiles_common dm A B Hen) as (C' & HC' & _ & Hs).
      simpl. congruence. }
  assert (Hcall : forall from to x y,
            static_cast dm A (return_type ov) from = Some x ->
            static_cast dm B (return_type ov) to = Some y ->
            call targs A B from to s
            = call Deduced (return_type ov) (return_type ov) x y s).
  { intros from to x y Hx Hy. destruct Htargs as [-> | ->].
    - destruct (compiles_deduced dm A B ov Hc) as [<- Hcat].
      assert (Hr : return_type ov = A)
        by (destruct Hcat as [[-> _]|[[-> _]|[-> _]]]; reflexivity).
      rewrite Hr in *. rewrite static_cast_same in Hx, Hy.
      congruence.
    - destruct (compiles_common_inv dm A B ov Hc) as [_ (C & _ & ->)].
      simpl in *.
      apply (call_common Engine World dm _ _ A B C); assumption. }
  split.
  - intros from to Hint Hfrom Hto.
    assert (Hin : in_range dm (return_type ov) from
                  /\ in_range dm (return_type ov) to).
    { destruct Htargs as [-> | ->].
      - destruct (compiles_deduced dm A B ov Hc) as [<- Hcat].
        assert (Hr : return_type ov = A)
          by (destruct Hcat as [[-> _]|[[-> _]|[-> _]]]; reflexivity).
        rewrite Hr. split; assumption.
      - destruct (compiles_common_inv dm A B ov Hc) as [Hen (C & HC & ->)].
        simpl in *. split.
        + exact (proj1 (common_type_holds dm A B C from Hen HC Hint) Hfrom).
        + exact (proj2 (common_type_holds dm A B C to Hen HC Hint) Hto). }
    destruct Hin as [Hf Ht].
    rewrite (Hcall (Vint from) (Vint to) (Vint from) (Vint to))
      by (apply static_cast_holds; assumption).
    rewrite (call_integral_draw _ from to s
               (supported_integral _ Hsup Hint) Hf Ht).
    eexists. split; [reflexivity|]. split; reflexivity.
  - intros from to a b Hfl Hx Hy.
    rewrite (Hcall from to (Vreal a) (Vreal b) Hx Hy).
    destruct (call_real_draw (return_type ov) a b s
                (supported_floating _ Hsup Hfl)) as (lo & hi & Hor & Heq).
    exists lo, hi. split; [exact Hor|]. split; [exact Heq|].
    intros Hpre. rewrite Heq. unfold bind.
    rewrite (sample_real_returns Engine World dm _ _ lo hi s Hpre).
    eexists. split; [reflexivity|]. split; reflexivity.
Qed.

End Engine.

(** The bounds [-DBL_MAX] and [DBL_MAX] are finite and in order, and
    their distance is not a finite [double]. *)
Lemma double_full_range :
  is_finite (SFopp double_max) = true
  /\ is_finite double_max = true
  /\ SFltb (SFopp double_max) double_max = true
  /\ SFsub 53 1024 double_max (SFopp double_max) = S754_infinity false
  /\ real_precondition LP64 Double (SFopp double_max) double_max = false.
Proof. repeat split; vm_compute; reflexivity. Qed.

(** The usual evaluation [(b - a) * u + a] of a draw, at a distance
    [b - a] that overflowed to [+infinity]: whatever finite [u > 0] the
    engine gives and whatever finite [a], the result is [+infinity]. *)
Lemma affine_draw_overflows (prec emax : Z) (m : positive) (e : Z)
    (a : spec_float) :
  is_finite a = true ->
  SFadd prec emax
    (SFmul prec emax (S754_infinity false) (S754_finite false m e)) a
  = S754_infinity false.
Proof. destruct a; intros H; try discriminate H; reflexivity. Qed.

(** C6. The claim, and the header's own comment on the uniform-real
    overload ("a random real number in a [from, to] range"), do not hold
    of [get(-DBL_MAX, DBL_MAX)] with two [double]: the bounds are finite
    and in order, so the body hands them to the distribution as they
    are, but their distance overflows, which is outside the precondition
    of the distribution; whatever the engine and the distribution, the
    call has no defined result, in particular none within
    [[-DBL_MAX, DBL_MAX]]. *)
Theorem get_real_full_range_undefined (Engine World : Type)
    (uniform_int_distribution : ctype -> Z -> Z -> Engine -> Z * Engine)
    (uniform_real_distribution :
       ctype -> spec_float -> spec_float -> Engine -> spec_float * Engine)
    (s : state Engine World) :
  get_uniform_real LP64 uniform_real_distribution Double
    (SFopp double_max) double_max s
  = sample_real LP64 uniform_real_distribution Double
      (SFopp double_max) double_max s
  /\ call LP64 uniform_int_distribution uniform_real_distribution
       Deduced Double Double (Vreal (SFopp double_max)) (Vreal double_max) s
     = Some Undefined
  /\ ~ (exists v s',
          call LP64 uniform_int_distribution uniform_real_distribution
            Deduced Double Double (Vreal (SFopp double_max)) (Vreal double_max) s
          = Some (Returns (Vreal v) s')
          /\ SFleb (SFmin (SFopp double_max) double_max) v = true
          /\ SFleb v (SFmax (SFopp double_max) double_max) = true).
Proof.
  destruct double_full_range as (_ & _ & Hlt & _ & Hpre).
  assert (Hget : get_uniform_real LP64 uniform_real_distribution Double
                   (SFopp double_max) double_max s
                 = sample_real LP64 uniform_real_distribution Double
                     (SFopp double_max) double_max s).
  { unfold get_uniform_real. rewrite Hlt. reflexivity. }
  assert (Hcall : call LP64 uniform_int_distribution uniform_real_distribution
                    Deduced Double Double
                    (Vreal (SFopp double_max)) (Vreal double_max) s
                  = Some Undefined).
  { rewrite (call_uniform_real Engine World LP64 _ _ Double _ _ s eq_refl).
    unfold bind. rewrite Hget.
    rewrite (sample_real_undefined Engine World LP64 _ Double _ _ s Hpre).
    reflexivity. }
  split; [exact Hget|]. split; [exact Hcall|].
  intros (v & s' & H & _). rewrite Hcall in H. discriminate H.
Qed.

(** C9 on [get(1, 6)] with two [int], in a state that holds more than
    the engine, and on [get<common>(-10, 10.0f)] with an [int] and a
    [float]. *)
Lemma get_is_one_draw_witness :
  (exists s',
     call LP64 reference_uniform_int reference_uniform_real
       Deduced Int Int (Vint 1) (Vint 6) (Build_state Z Z 1 7)
     = Some (Returns (Vint (fst (reference_uniform_int Int 1 6 1))) s')
     /\ engine s' = snd (reference_uniform_int Int 1 6 1)
     /\ world s' = 7)
  /\
  (exists lo hi,
     ((lo = real_of_int LP64 Float (-10) /\ hi = real_of_int LP64 Float 10)
      \/ (lo = real_of_int LP64 Float 10 /\ hi = real_of_int LP64 Float (-10)))
     /\ call LP64 reference_uniform_int reference_uniform_real
          (Explicit CommonTag) Int Float
          (Vint (-10)) (Vreal (real_of_int LP64 Float 10)) (Build_state Z Z 1 7)
        = Some (bind (sample_real LP64 reference_uniform_real Float lo hi)
                     (fun v => ret (Vreal v)) (Build_state Z Z 1 7))).
Proof.
  assert (H1 : in_range LP64 Int 1) by solve_in_range.
  assert (H6 : in_range LP64 Int 6) by solve_in_range.
  split.
  - exact (proj1 (get_is_one_draw Z Z LP64
                    reference_uniform_int reference_uniform_real
                    (reference_uniform_int_contract LP64)
                    Deduced Int Int (OvUniformInt Int) (Build_state Z Z 1 7)
                    (or_introl eq_refl) eq_refl) 1 6 eq_refl H1 H6).
  - destruct (proj2 (get_is_one_draw Z Z LP64
                       reference_uniform_int reference_uniform_real
                       (reference_uniform_int_contract LP64)
                       (Explicit CommonTag) Int Float (OvCommon Int Float Float)
                       (Build_state Z Z 1 7)
                       (or_intror eq_refl) eq_refl)
                    (Vint (-10)) (Vreal (real_of_int LP64 Float 10))
                    (real_of_int LP64 Float (-10)) (real_of_int LP64 Float 10)
                    eq_refl eq_refl eq_refl)
      as (lo & hi & Hor & Heq & _).
    exists lo, hi. split; [exact Hor|exact Heq].
Defined.

(** * Calls that give further template arguments *)

(** On no template argument and on one, the list form is the call form
    of the sections above. *)
Lemma compiles_with_deduced (dm : data_model) (A B : ctype) :
  compiles_with dm [] A B = compiles dm Deduced A B.
Proof. reflexivity. Qed.

Lemma compiles_with_explicit (dm : data_model) (K A B : ctype) :
  compiles_with dm [K] A B = compiles dm (Explicit K) A B.
Proof.
  unfold compiles_with, compiles, resolve_with, resolve,
    candidates_with, candidates, common_candidate_with, common_candidate,
    single_type_candidate_with, implicitly_converts.
  simpl. rewrite !is_same_refl. simpl. rewrite !andb_true_r. reflexivity.
Qed.

(** The body of the common-type overload instantiates exactly when its
    inner call [get(C, C)] finds an overload: when [C] is a supported
    number type. *)
Lemma instantiates_common (dm : data_model) (A B C : ctype) :
  instantiates dm (OvCommon A B C) = is_supported_number C.
Proof. destruct C; reflexivity. Qed.

Lemma resolve_with_common (dm : data_model) (A B C TA TB : ctype) :
  implicitly_converts TA A = true -> implicitly_converts TB B = true ->
  resolve_with dm [CommonTag; A; B; C] TA TB
  = if common_enabled CommonTag A B then Some (OvCommon A B C) else None.
Proof.
  intros HA HB.
  unfold resolve_with, candidates_with, common_candidate_with,
    single_type_candidate_with.
  simpl. rewrite HA, HB. rewrite !andb_true_r.
  destruct (common_enabled CommonTag A B); reflexivity.
Qed.

(** X13. The [enable_if] condition of the common-type overload does not
    look at the result type: a call [get<common, A, B, C>(from, to)]
    that gives [C] resolves to the common-type overload exactly when [A]
    and [B] pass the condition, whatever [C] is, and it compiles exactly
    when, besides, [C] is a supported number type; otherwise the call
    passes the condition and fails inside the body. *)
Theorem result_type_argument_unchecked (dm : data_model)
    (A B C TA TB : ctype) :
  implicitly_converts TA A = true -> implicitly_converts TB B = true ->
  (resolve_with dm [CommonTag; A; B; C] TA TB = Some (OvCommon A B C)
   <-> common_enabled CommonTag A B = true)
  /\
  (compiles_with dm [CommonTag; A; B; C] TA TB = Some (OvCommon A B C)
   <-> common_enabled CommonTag A B = true /\ is_supported_number C = true)
  /\
  (common_enabled CommonTag A B = true -> is_supported_number C = false ->
   resolve_with dm [CommonTag; A; B; C] TA TB = Some (OvCommon A B C)
   /\ compiles_with dm [CommonTag; A; B; C] TA TB = None).
Proof.
  intros HA HB.
  pose proof (resolve_with_common dm A B C TA TB HA HB) as Hr.
  unfold compiles_with. rewrite Hr.
  destruct (common_enabled CommonTag A B);
    rewrite ?instantiates_common; destruct (is_supported_number C);
    repeat split; intros; try congruence;
    match goal with
    | H : _ /\ _ |- _ => destruct H; congruence
    | _ => idtac
    end.
Qed.

Section CallsWith.

#[local] Set Warnings "-notation-for-abbreviation".

Variables Engine World : Type.
Variable dm : data_model.
Variable uniform_int_distribution : ctype -> Z -> Z -> Engine -> Z * Engine.
Variable uniform_real_distribution :
  ctype -> spec_float -> spec_float -> Engine -> spec_float * Engine.

Hypothesis int_contract : uniform_int_contract dm uniform_int_distribution.

Local Notation state := (state Engine World).
Local Notation call :=
  (call dm uniform_int_distribution uniform_real_distribution).
Local Notation call_with :=
  (call_with dm uniform_int_distribution uniform_real_distribution).

(** X14. With the result type given, the common-type overload samples
    at that type, whatever the argument types: for [C] integral or byte
    and bounds of types [A] and [B], [get<common, A, B, C>(from, to)] is
    the call [get] at [C] on the bounds converted to [C], and what it
    returns lies between the converted bounds, which are the given ones
    only when [C] holds them. *)
Theorem explicit_result_type_converts_bounds
    (A B C : ctype) (from to : Z) (s : state) :
  common_enabled CommonTag A B = true ->
  is_uniform_int C || is_byte C = true ->
  in_range dm A from -> in_range dm B to ->
  call_with [CommonTag; A; B; C] A B (Vint from) (Vint to) s
  = call Deduced C C (Vint (wrap dm C from)) (Vint (wrap dm C to)) s
  /\ (exists v s',
        call_with [CommonTag; A; B; C] A B (Vint from) (Vint to) s
        = Some (Returns (Vint v) s')
        /\ Z.min (wrap dm C from) (wrap dm C to) <= v
           <= Z.max (wrap dm C from) (wrap dm C to))
  /\ (in_range dm C from -> wrap dm C from = from)
  /\ (in_range dm C to -> wrap dm C to = to).
Proof.
  intros Hen HC Hfrom Hto.
  assert (HCs : is_supported_number C = true).
  { unfold is_supported_number. apply orb_true_iff in HC.
    destruct HC as [-> | ->]; rewrite ?orb_true_r; reflexivity. }
  assert (HCi : is_integral C = true)
    by (destruct C; try discriminate HC; reflexivity).
  assert (Hconv : forall T, implicitly_converts T T = true)
    by (intros T; unfold implicitly_converts; rewrite is_same_refl; reflexivity).
  assert (Heq : call_with [CommonTag; A; B; C] A B (Vint from) (Vint to) s
                = call Deduced C C (Vint (wrap dm C from))
                    (Vint (wrap dm C to)) s).
  { unfold call_with, compiles_with.
    rewrite (resolve_with_common dm A B C A B (Hconv A) (Hconv B)), Hen.
    rewrite instantiates_common, HCs.
    unfold invoke_with. rewrite !static_cast_same.
    unfold defined, bind, ret, get_common.
    rewrite (static_cast_wrap dm A C from HC Hfrom).
    rewrite (static_cast_wrap dm B C to HC Hto).
    unfold defined, bind, ret, get_same.
    destruct (resolve_deduced_supported dm C HCs) as [-> Hsome].
    destruct (compiles dm Deduced C C) as [ov|] eqn:E; [|congruence].
    rewrite (call_deduced Engine World dm _ _ C ov _ _ s E). reflexivity. }
  split; [exact Heq|]. split.
  - rewrite Heq.
    apply (call_integral_range Engine World dm _ uniform_real_distribution
             int_contract C _ _ s HC); apply wrap_range; exact HC.
  - split; intros H; apply wrap_in_range; assumption.
Qed.

End CallsWith.

(** X13 on [get<common, int, long, bool>] with an [int] and a [long]. *)
Lemma result_type_argument_unchecked_witness :
  common_enabled CommonTag Int Long = true
  /\ is_supported_number Bool = false
  /\ resolve_with LP64 [CommonTag; Int; Long; Bool] Int Long
     = Some (OvCommon Int Long Bool)
  /\ compiles_with LP64 [CommonTag; Int; Long; Bool] Int Long = None.
Proof.
  split; [reflexivity|]. split; [reflexivity|].
  exact (proj2 (proj2 (result_type_argument_unchecked LP64
                         Int Long Bool Int Long eq_refl eq_refl))
               eq_refl eq_refl).
Defined.

(** X14 on [get<common, int, long, short>(100000, 6L)]: the call samples
    at [short], between [-31072] and [6]. *)
Lemma explicit_result_type_converts_bounds_witness :
  wrap LP64 Short 100000 = -31072
  /\ exists v s',
       call_with LP64 reference_uniform_int reference_uniform_real
         [CommonTag; Int; Long; Short] Int Long
         (Vint 100000) (Vint 6) (reference_state 1)
       = Some (Returns (Vint v) s')
       /\ Z.min (wrap LP64 Short 100000) (wrap LP64 Short 6) <= v
          <= Z.max (wrap LP64 Short 100000) (wrap LP64 Short 6).
Proof.
  assert (Hlo : in_range LP64 Int 100000) by solve_in_range.
  assert (Hhi : in_range LP64 Long 6) by solve_in_range.
  split; [reflexivity|].
  exact (proj1 (proj2 (explicit_result_type_converts_bounds Z unit LP64
                         reference_uniform_int reference_uniform_real
                         (reference_uniform_int_contract LP64)
                         Int Long Short 100000 6 (reference_state 1)
                         eq_refl eq_refl Hlo Hhi))).
Defined.
